(** * SimpleSearchClient: a shallow embedding of [src/SimpleSearchClient.ts]

    The client is a TypeScript class whose methods build request URLs,
    call Axios, and post-process the replies.  The embedding follows the
    source method by method:

    - strings are sequences of UTF-16 code units, as in ECMAScript;
    - values typed [any] live in a store of objects addressed by
      location, so that copying, stamping and in-place fix-up of objects
      are visible as store updates;
    - [async] methods are computations in a state-and-exception monad
      over that store: a rejected promise is a thrown value;
    - Axios is an interface ([Transport]) the client is parametric in. *)

From Stdlib Require Import String Ascii NArith.
From stdpp Require Import gmap list fin_maps pretty.

Open Scope N_scope.
Open Scope list_scope.

(** ** Strings *)

(** An ECMAScript string is a finite sequence of 16-bit code units. *)
Abbreviation jsstring := (list N).

(** Source literals are ASCII, one code unit per character. *)
Definition lit (s : string) : jsstring := N_of_ascii <$> list_ascii_of_string s.
Arguments lit : simpl never.

(** The literal without characters. *)
Abbreviation empty_string := (@nil N).

(** Closed facts about literals are decided by evaluation. *)
Ltac by_evaluation := apply (bool_decide_unpack _); vm_compute; exact I.

(** The truthiness of a string: every string but the empty one. *)
Definition nonempty (s : jsstring) : bool :=
  match s with [] => false | _ :: _ => true end.

(** Decimal spelling of an array index, the property key of an element. *)
Definition index_key (i : nat) : jsstring := lit (pretty (N.of_nat i)).

(** ** [encodeURIComponent] (ECMAScript, Encode with the unreserved set
    of URI components) *)

Definition in_range (lo hi c : N) : bool := (lo <=? c) && (c <=? hi).

(** uriAlpha, DecimalDigit and uriMark: [- _ . ! ~ * ' ( )]. *)
Definition uriUnreserved (c : N) : bool :=
  in_range 65 90 c || in_range 97 122 c || in_range 48 57 c
  || bool_decide (c ∈ lit "-_.!~*'()").

Definition is_leading_surrogate (c : N) : bool := in_range 55296 56319 c.
Definition is_trailing_surrogate (c : N) : bool := in_range 56320 57343 c.

Definition hex_digit (n : N) : N :=
  nth (N.to_nat (n mod 16)) (lit "0123456789ABCDEF") 48.

(** One escaped octet: a percent sign and two upper-case hex digits. *)
Definition percent (octet : N) : jsstring :=
  [37; hex_digit (octet / 16); hex_digit octet].

(** The UTF-8 octets of a code point. *)
Definition utf8_octets (cp : N) : list N :=
  if cp <? 128 then [cp]
  else if cp <? 2048 then [192 + cp / 64; 128 + cp mod 64]
  else if cp <? 65536 then
    [224 + cp / 4096; 128 + (cp / 64) mod 64; 128 + cp mod 64]
  else
    [240 + cp / 262144; 128 + (cp / 4096) mod 64;
     128 + (cp / 64) mod 64; 128 + cp mod 64].

Definition escape_code_point (cp : N) : jsstring :=
  concat (percent <$> utf8_octets cp).

(** [None] stands for the URIError raised on an unpaired surrogate. *)
Fixpoint encodeURIComponent (s : jsstring) : option jsstring :=
  match s with
  | [] => Some []
  | c :: rest =>
      if uriUnreserved c then cons c <$> encodeURIComponent rest
      else if is_trailing_surrogate c then None
      else if is_leading_surrogate c then
        match rest with
        | d :: rest' =>
            if is_trailing_surrogate d then
              app (escape_code_point
                     ((c - 55296) * 1024 + (d - 56320) + 65536))
                <$> encodeURIComponent rest'
            else None
        | [] => None
        end
      else app (escape_code_point c) <$> encodeURIComponent rest
  end.

(** What an encoded component is made of: unreserved characters and
    the percent sign of the escapes (their hex digits are unreserved). *)
Definition component_unit (c : N) : Prop := uriUnreserved c = true ∨ c = 37.

(** A string is well formed when every surrogate code unit is half of
    a pair: a leading one immediately followed by a trailing one. *)
Fixpoint well_formed (s : jsstring) : bool :=
  match s with
  | [] => true
  | c :: rest =>
      if is_trailing_surrogate c then false
      else if is_leading_surrogate c then
        match rest with
        | d :: rest' => is_trailing_surrogate d && well_formed rest'
        | [] => false
        end
      else well_formed rest
  end.

(** ** Query strings, for counting the parameters of a built URL *)

(** The part of [s] before the first [sep], and the part after it. *)
Fixpoint before (sep : N) (s : jsstring) : jsstring :=
  match s with
  | [] => []
  | c :: rest => if c =? sep then [] else c :: before sep rest
  end.

Fixpoint after (sep : N) (s : jsstring) : option jsstring :=
  match s with
  | [] => None
  | c :: rest => if c =? sep then Some rest else after sep rest
  end.

(** The pieces of [s] between occurrences of [sep]. *)
Fixpoint split_on (sep : N) (s : jsstring) : list jsstring :=
  match s with
  | [] => [[]]
  | c :: rest =>
      if c =? sep then [] :: split_on sep rest
      else match split_on sep rest with
           | piece :: pieces => (c :: piece) :: pieces
           | [] => [[c]]
           end
  end.

(** The parameters of a URL: what follows the first [?], up to a [#],
    cut at every [&]. *)
Definition url_parameters (url : jsstring) : list jsstring :=
  match after 63 (before 35 url) with
  | Some q => split_on 38 q
  | None => []
  end.

Definition parameter_name (p : jsstring) : jsstring := before 61 p.

Definition count_parameter (name : jsstring) (ps : list jsstring) : nat :=
  length (filter (λ p, parameter_name p = name) ps).

(** ** Declared interfaces without [any]-typed members *)

Module Field.
Record t := { name : jsstring; key : bool }.
End Field.

Module Index.
Record t := { name : jsstring; fields : list Field.t }.
End Index.

Module NamedItem.
Record t := { name : jsstring }.
End NamedItem.

Record CollectionResponse (T : Type) := { value : list T }.
Arguments value {T} _.

Record AxiosRequestConfig := { headers : gmap jsstring jsstring }.

Record AxiosResponse (T : Type) :=
  { data : T; response_headers : gmap jsstring jsstring }.
Arguments data {T} _.
Arguments response_headers {T} _.

Record SimpleSearchClient := {
  serviceName : jsstring;
  apikey : jsstring;
  cloudSuffix : option jsstring;  (* [None] is [undefined] *)
  userAgent : jsstring            (* [appendExtensionUserAgent()] *)
}.

Definition API_VERSION : jsstring := lit "2019-05-06".

(** [this.cloudSuffix || d]: [undefined] and the empty string are falsy. *)
Definition or_default (s : option jsstring) (d : jsstring) : jsstring :=
  match s with
  | Some s => if nonempty s then s else d
  | None => d
  end.

Definition makeUrl (this : SimpleSearchClient) (path options : jsstring)
  : jsstring :=
  let suffix := or_default (cloudSuffix this) (lit "search.windows.net") in
  let options :=
    if bool_decide (options ≠ empty_string)
       && bool_decide (take 1 options ≠ lit "&")
    then lit "&" ++ options
    else options in
  lit "https://" ++ serviceName this ++ lit "." ++ suffix ++ lit "/" ++ path
    ++ lit "?api-version=" ++ API_VERSION ++ options.

Definition makeRequestConfig (this : SimpleSearchClient) : AxiosRequestConfig :=
  {| headers := <[lit "User-Agent" := userAgent this]>
                  {[ lit "api-key" := apikey this ]} |}.

(** ** Values, objects and the store *)

Abbreviation loc := positive.

(** The number type of the language.  The client does no arithmetic: it
    only tests numbers for truthiness and converts them to strings. *)
Class Numbers := {
  number : Type;
  number_truthy : number → bool;      (* false for zeros and NaN *)
  NumberToString : number → jsstring
}.

Section Runtime.
Context {NU : Numbers}.

(** A value typed [any]: a primitive, or a reference to an object. *)
Inductive any :=
| VUndefined
| VNull
| VBool (b : bool)
| VNum (n : number)
| VStr (s : jsstring)
| VRef (l : loc).

(** Objects carry their own data properties.  Arrays have their elements
    besides, and instances of Error the name their prototype gives them.
    Prototype chains, accessors and methods are not represented. *)
Inductive class :=
| ClsObject
| ClsArray (elems : list any)
| ClsError (name : jsstring).

Record object := { cls : class; props : gmap jsstring any }.

Abbreviation heap := (gmap loc object).

Definition ordinary (p : gmap jsstring any) : object :=
  {| cls := ClsObject; props := p |}.

Definition array (elems : list any) : object :=
  {| cls := ClsArray elems; props := ∅ |}.

(** What [new E(message)] creates, for [E] an error constructor. *)
Definition error_instance (name : jsstring) (message : jsstring) : object :=
  {| cls := ClsError name; props := {[ lit "message" := VStr message ]} |}.

Definition fresh_loc (h : heap) : loc := fresh (dom h).

(** The errors the language itself raises in this program. *)
Inductive fault :=
| ReadOfNullish (base : any) (k : jsstring)
| WriteToNullish (base : any) (k : jsstring)
| WriteToPrimitive (base : any) (k : jsstring)
| NoPrimitiveValue (l : loc)
| MalformedURI.

Definition fault_name (f : fault) : jsstring :=
  match f with
  | MalformedURI => lit "URIError"
  | _ => lit "TypeError"
  end.

(** What the model leaves to the engine: the string an object converts
    to ([None] when the conversion raises), which depends on methods
    found through the prototype chain, and the text of built-in error
    messages, which ECMAScript does not fix. *)
Class Engine := {
  ObjectToString : heap → loc → option jsstring;
  fault_message : fault → jsstring
}.

(** ** Computations: state passing with exceptions *)

Inductive result (A : Type) :=
| Ok (a : A)
| Throw (e : any).
Arguments Ok {A} _.
Arguments Throw {A} _.

Definition M (A : Type) : Type := heap → result A * heap.

#[export] Instance M_ret : MRet M := λ A a h, (Ok a, h).

#[export] Instance M_bind : MBind M := λ A B f m h,
  match m h with
  | (Ok a, h') => f a h'
  | (Throw e, h') => (Throw e, h')
  end.

Definition throw {A} (e : any) : M A := λ h, (Throw e, h).

(** [try { m } catch (error) { handler error }] *)
Definition try_catch {A} (m : M A) (handler : any → M A) : M A := λ h,
  match m h with
  | (Ok a, h') => (Ok a, h')
  | (Throw e, h') => handler e h'
  end.

Definition alloc (o : object) : M any := λ h,
  (Ok (VRef (fresh_loc h)), <[fresh_loc h := o]> h).

Context {EN : Engine}.

Definition raise {A} (f : fault) : M A :=
  e ← alloc (error_instance (fault_name f) (fault_message f)); throw e.

Definition ToBoolean (v : any) : bool :=
  match v with
  | VUndefined | VNull => false
  | VBool b => b
  | VNum n => number_truthy n
  | VStr s => nonempty s
  | VRef _ => true
  end.

Definition ToString (v : any) : M jsstring :=
  match v with
  | VUndefined => mret (lit "undefined")
  | VNull => mret (lit "null")
  | VBool b => mret (if b then lit "true" else lit "false")
  | VNum n => mret (NumberToString n)
  | VStr s => mret s
  | VRef l => λ h,
      match ObjectToString h l with
      | Some s => (Ok s, h)
      | None => raise (NoPrimitiveValue l) h
      end
  end.

(** [new Error(message)] *)
Definition new_Error (message : any) : M any :=
  match message with
  | VUndefined => alloc {| cls := ClsError (lit "Error"); props := ∅ |}
  | _ => s ← ToString message; alloc (error_instance (lit "Error") s)
  end.

(** The own data property [k] of the object at [l]; [undefined] when
    there is none. *)
Definition own_property (h : heap) (l : loc) (k : jsstring) : any :=
  default VUndefined (h !! l ≫= λ o, props o !! k).

(** [v.k] and [v[k]], for the names this client reads: none of them is
    an array index, [length], or a member of a built-in prototype. *)
Definition get (v : any) (k : jsstring) : M any :=
  match v with
  | VUndefined | VNull => raise (ReadOfNullish v k)
  | VRef l => λ h, (Ok (own_property h l k), h)
  | VBool _ | VNum _ | VStr _ => mret VUndefined
  end.

(** [v.k = x] in strict code, for names that are neither an array index
    nor [length].  An object without an own [__proto__] property routes
    that name to the prototype setter, which creates no property. *)
Definition set (v : any) (k : jsstring) (x : any) : M () :=
  match v with
  | VUndefined | VNull => raise (WriteToNullish v k)
  | VRef l => λ h,
      (Ok (), alter (λ o,
                 if bool_decide (k = lit "__proto__")
                    && bool_decide (props o !! k = None)
                 then o
                 else {| cls := cls o; props := <[k := x]> (props o) |}) l h)
  | VBool _ | VNum _ | VStr _ => raise (WriteToPrimitive v k)
  end.

(** The own enumerable properties [{...v}] copies: none for [undefined],
    [null], booleans and numbers; the code units of a string under their
    indices; for an object its properties, with the elements of an array
    under their indices and without the [message] and [stack] an Error
    constructor installs. *)
Definition indexed (l : list any) : gmap jsstring any :=
  list_to_map (imap (λ i x, (index_key i, x)) l).

Definition enumerable (o : object) : gmap jsstring any :=
  match cls o with
  | ClsObject => props o
  | ClsArray elems => indexed elems ∪ props o
  | ClsError _ => delete (lit "stack") (delete (lit "message") (props o))
  end.

Definition own_enumerable (h : heap) (v : any) : gmap jsstring any :=
  match v with
  | VRef l => from_option enumerable ∅ (h !! l)
  | VStr s => indexed ((λ c, VStr [c]) <$> s)
  | _ => ∅
  end.

(** [{ ...v }] *)
Definition spread (v : any) : M any := λ h,
  alloc (ordinary (own_enumerable h v)) h.

(** [a && b]: the value of [a] when it is falsy, else the value of [b]. *)
Definition and_then (a b : M any) : M any :=
  x ← a; if ToBoolean x then b else mret x.

(** [a || b] *)
Definition or_else (a b : M any) : M any :=
  x ← a; if ToBoolean x then mret x else b.

(** [v.k1.k2...]: a chain of property reads, left to right. *)
Definition get_path (v : any) (ks : list jsstring) : M any :=
  foldl (λ m k, x ← m; get x k) (mret v) ks.

(** ** Axios *)

(** [Axios.get<T>], [Axios.post<T>] and [Axios.put<T>]: the reply is the
    environment's.  A computation of the monad, so that the reply's
    objects live in the store and a rejection is a thrown value. *)
Class Transport (T : Type) := {
  Axios_get : jsstring → AxiosRequestConfig → M (AxiosResponse T);
  Axios_post : jsstring → any → AxiosRequestConfig → M (AxiosResponse T);
  Axios_put : jsstring → any → AxiosRequestConfig → M (AxiosResponse T)
}.

Record BatchResponseEntry := {
  key : any;
  status : bool;
  errorMessage : jsstring;
  statusCode : number
}.

(** The result of [getResource]. *)
Record Resource := { content : any; etag : option jsstring }.

(** ** The client's methods *)

Definition extractErrorMessage (error : any) : M any :=
  c ← and_then (and_then (and_then
         (get_path error [lit "response"])
         (get_path error [lit "response"; lit "data"]))
         (get_path error [lit "response"; lit "data"; lit "error"]))
         (get_path error
            [lit "response"; lit "data"; lit "error"; lit "message"]);
  if ToBoolean c then
    get_path error [lit "response"; lit "data"; lit "error"; lit "message"]
  else
    x ← or_else (get error (lit "message")) (mret error);
    s ← ToString x;
    mret (VStr (lit "Error: " ++ s)).

Definition fixupQueryResponse (response : any) : M () :=
  nextLink ← get response (lit "@odata.nextLink");
  set response (lit "nextLink") nextLink;;
  nextPageParameters ← get response (lit "@search.nextPageParameters");
  set response (lit "nextPageParameteres") nextPageParameters.

(** The [catch] block the three transport wrappers share. *)
Definition rethrow_normalized {A} (error : any) : M A :=
  m ← extractErrorMessage error; e ← new_Error m; throw e.

Definition httpGetUrl {T} `{Transport T} (this : SimpleSearchClient)
    (url : jsstring) : M (AxiosResponse T) :=
  try_catch (Axios_get url (makeRequestConfig this)) rethrow_normalized.

Definition httpGet {T} `{Transport T} (this : SimpleSearchClient)
    (path queryString : jsstring) : M (AxiosResponse T) :=
  httpGetUrl this (makeUrl this path queryString).

Definition httpPost {T} `{Transport T} (this : SimpleSearchClient)
    (path : jsstring) (data : any) : M (AxiosResponse T) :=
  try_catch
    (Axios_post (makeUrl this path empty_string) data (makeRequestConfig this))
    rethrow_normalized.

Definition httpPut {T} `{Transport T} (this : SimpleSearchClient)
    (path : jsstring) (data : any) (etag : option jsstring)
  : M (AxiosResponse T) :=
  try_catch
    (let config := makeRequestConfig this in
     let config :=
       match etag with
       | Some e =>
           if nonempty e
           then {| headers := <[lit "if-match" := e]> (headers config) |}
           else config
       | None => config
       end in
     Axios_put (makeUrl this path empty_string) data config)
    rethrow_normalized.

Definition listIndexes `{Transport (CollectionResponse Index.t)}
    (this : SimpleSearchClient) : M (list Index.t) :=
  r ← httpGet this (lit "indexes") (lit "$select=name,fields");
  mret (value (data r)).

Definition listDataSources `{Transport (CollectionResponse NamedItem.t)}
    (this : SimpleSearchClient) : M (list jsstring) :=
  r ← httpGet this (lit "datasources") (lit "$select=name");
  mret (NamedItem.name <$> value (data r)).

Definition listIndexers `{Transport (CollectionResponse NamedItem.t)}
    (this : SimpleSearchClient) : M (list jsstring) :=
  r ← httpGet this (lit "indexers") (lit "$select=name");
  mret (NamedItem.name <$> value (data r)).

Definition getResource `{Transport any} (this : SimpleSearchClient)
    (resource name : jsstring) : M Resource :=
  r ← httpGet this (resource ++ lit "/" ++ name) empty_string;
  mret {| content := data r; etag := response_headers r !! lit "etag" |}.

Definition updateResource `{Transport any} (this : SimpleSearchClient)
    (resource name : jsstring) (content : any) (etag : option jsstring)
  : M (AxiosResponse any) :=
  httpPut this (resource ++ lit "/" ++ name) content etag.

Definition query `{Transport any} (this : SimpleSearchClient)
    (indexName query : jsstring) (raw : bool) : M any :=
  r ← httpGet this (lit "indexes/" ++ indexName ++ lit "/docs") query;
  (if negb raw then fixupQueryResponse (data r) else mret ());;
  mret (data r).

Definition queryNext `{Transport any} (this : SimpleSearchClient)
    (nextLink : jsstring) : M any :=
  r ← httpGetUrl this nextLink;
  fixupQueryResponse (data r);;
  mret (data r).

Definition lookup `{Transport any} (this : SimpleSearchClient)
    (indexName key : jsstring) : M any :=
  encodedKey ← from_option mret (raise MalformedURI) (encodeURIComponent key);
  r ← httpGet this (lit "indexes/" ++ indexName ++ lit "/docs/" ++ encodedKey)
        empty_string;
  mret (data r).

Definition indexBatch `{Transport (CollectionResponse BatchResponseEntry)}
    (this : SimpleSearchClient) (indexName : jsstring) (batch : any) : M () :=
  batchResponse ←
    try_catch
      (r ← httpPost this (lit "indexes/" ++ indexName ++ lit "/docs/index")
             batch;
       mret (data r))
      (λ error,
         m ← extractErrorMessage error;
         s ← ToString m;
         e ← new_Error (VStr (lit "Failed to process document: " ++ s));
         throw e);
  (if bool_decide (length (value batchResponse) ≠ 1%nat) then
     e ← new_Error (VStr (lit
           "Unexpected response from service while attempting to process document"));
     throw e
   else mret ());;
  match value batchResponse !! 0%nat with
  | Some entry =>
      if negb (status entry) then
        e ← new_Error
              (VStr (lit "Failed to process document: " ++ errorMessage entry));
        throw e
      else mret ()
  | None => raise (ReadOfNullish VUndefined (lit "status"))
  end.

Definition uploadDocument `{Transport (CollectionResponse BatchResponseEntry)}
    (this : SimpleSearchClient) (indexName : jsstring) (doc : any)
    (createNew : bool) : M () :=
  shallowCopy ← spread doc;
  set shallowCopy (lit "@search.action")
    (VStr (if createNew then lit "mergeOrUpload" else lit "merge"));;
  elements ← alloc (array [shallowCopy]);
  batch ← alloc (ordinary {[ lit "value" := elements ]});
  indexBatch this indexName batch.

Definition deleteDocument `{Transport (CollectionResponse BatchResponseEntry)}
    (this : SimpleSearchClient) (indexName keyName : jsstring) (key : any)
  : M () :=
  deletion ← alloc (ordinary ∅);
  set deletion (lit "@search.action") (VStr (lit "delete"));;
  set deletion keyName key;;
  elements ← alloc (array [deletion]);
  batch ← alloc (ordinary {[ lit "value" := elements ]});
  indexBatch this indexName batch.

(** ** Reading a failure value without running the program *)

(** The property [k] of [v] as a plain function of the store: what
    [get] yields for every [v] other than [undefined] and [null]. *)
Definition peek (h : heap) (v : any) (k : jsstring) : any :=
  match v with
  | VRef l => own_property h l k
  | _ => VUndefined
  end.

(** [error.response.data.error.message] *)
Definition nested_message (h : heap) (error : any) : any :=
  peek h (peek h (peek h (peek h error (lit "response")) (lit "data"))
            (lit "error")) (lit "message").

(** All four links of the chain are truthy. *)
Definition carries_message (h : heap) (error : any) : bool :=
  ToBoolean (peek h error (lit "response"))
  && ToBoolean (peek h (peek h error (lit "response")) (lit "data"))
  && ToBoolean (peek h (peek h (peek h error (lit "response")) (lit "data"))
                  (lit "error"))
  && ToBoolean (nested_message h error).

(** [error.message || error] *)
Definition own_message_or_self (h : heap) (error : any) : any :=
  if ToBoolean (peek h error (lit "message"))
  then peek h error (lit "message")
  else error.

(** The body [o] after the fix-up: the two normalized fields are set
    from the vendor's, everything else is as it was. *)
Definition fixed_up (o : object) : object :=
  {| cls := cls o;
     props :=
       <[lit "nextPageParameteres" :=
           default VUndefined (props o !! lit "@search.nextPageParameters")]>
         (<[lit "nextLink" :=
              default VUndefined (props o !! lit "@odata.nextLink")]>
            (props o)) |}.

(** The URL [indexBatch] posts to. *)
Definition docs_index_url (this : SimpleSearchClient) (indexName : jsstring)
  : jsstring :=
  makeUrl this (lit "indexes/" ++ indexName ++ lit "/docs/index") empty_string.

(** A computation that only adds objects to the store: every object
    that existed before it ran is there afterwards, unchanged. *)
Definition extends {A} (m : M A) : Prop := ∀ h, h ⊆ (m h).2.

(** The outcome of [throw new Error(message)] in the store [h]. *)
Definition Error_thrown {A} (message : jsstring) (h : heap) : result A * heap :=
  (Throw (VRef (fresh_loc h)),
   <[fresh_loc h := error_instance (lit "Error") message]> h).

End Runtime.

Arguments Ok {_ A} _.
Arguments Throw {_ A} _.

Abbreviation heap := (gmap loc object).

(** ** Fixtures: a concrete engine and scripted transports *)

Definition sample_numbers : Numbers :=
  {| number := Z;
     number_truthy := λ n, negb (n =? 0)%Z;
     NumberToString := λ n, lit (pretty n) |}.

(** An engine with the built-in conversions of ordinary objects and of
    Error instances whose message is a string; it converts nothing
    else. *)
Definition sample_engine : @Engine sample_numbers :=
  {| ObjectToString := λ h l,
       match h !! l with
       | Some {| cls := ClsError name; props := p |} =>
           match p !! lit "message" with
           | Some (VStr (c :: m)) => Some (name ++ lit ": " ++ c :: m)
           | _ => Some name
           end
       | Some {| cls := ClsObject |} => Some (lit "[object Object]")
       | _ => None
       end;
     fault_message := λ f,
       match f with
       | MalformedURI => lit "URI malformed"
       | ReadOfNullish _ k => lit "Cannot read property " ++ k
       | WriteToNullish _ k => lit "Cannot set property " ++ k
       | WriteToPrimitive _ k => lit "Cannot create property " ++ k
       | NoPrimitiveValue _ => lit "Cannot convert object to primitive value"
       end |}.

(** A transport that resolves every request with the response [r]. *)
Definition replying {T} (r : AxiosResponse T) : @Transport sample_numbers T :=
  {| Axios_get := λ _ _, mret r;
     Axios_post := λ _ _ _, mret r;
     Axios_put := λ _ _ _, mret r |}.

(** A transport that parses every reply into a fresh object [body]. *)
Definition serving (body : @object sample_numbers)
  : @Transport sample_numbers any :=
  let reply := d ← alloc body; mret {| data := d; response_headers := ∅ |} in
  {| Axios_get := λ _ _, reply;
     Axios_post := λ _ _ _, reply;
     Axios_put := λ _ _ _, reply |}.

Definition sample_client : SimpleSearchClient :=
  {| serviceName := lit "svc"; apikey := lit "secret";
     cloudSuffix := None; userAgent := lit "agent" |}.

Definition batch_reply (entries : list (@BatchResponseEntry sample_numbers))
  : AxiosResponse (CollectionResponse BatchResponseEntry) :=
  {| data := {| value := entries |}; response_headers := ∅ |}.

Definition sample_entry (ok : bool) (message : jsstring)
  : @BatchResponseEntry sample_numbers :=
  @Build_BatchResponseEntry sample_numbers
    (VStr (lit "1")) ok message (if ok then 200%Z else 400%Z).

(** The failure [{ message: own, response: { data: { error: { message:
    nested } } } }], laid out at locations 1 to 4. *)
Definition failure_store (own nested : @any sample_numbers)
  : gmap loc (@object sample_numbers) :=
  <[1%positive := ordinary (<[lit "message" := own]>
                              {[ lit "response" := VRef 2 ]})]>
  (<[2%positive := ordinary {[ lit "data" := VRef 3 ]}]>
  (<[3%positive := ordinary {[ lit "error" := VRef 4 ]}]>
  {[ 4%positive := ordinary {[ lit "message" := nested ]} ]})).

(** The caller's record [{ id: "1", title: "x" }] at location 1. *)
Definition document_store : gmap loc (@object sample_numbers) :=
  {[ 1%positive := ordinary (<[lit "id" := VStr (lit "1")]>
                               {[ lit "title" := VStr (lit "x") ]}) ]}.

(** The parameters a raw query fragment carries by itself. *)
Definition own_parameters (options : jsstring) : list jsstring :=
  match options with
  | [] => []
  | c :: rest => split_on 38 (before 35 (if c =? 38 then rest else options))
  end.

(** The URL as the specification words it: the supplied suffix, or the
    default one when none was supplied. *)
Definition spec_makeUrl (this : SimpleSearchClient) (path options : jsstring)
  : jsstring :=
  lit "https://" ++ serviceName this ++ lit "."
    ++ default (lit "search.windows.net") (cloudSuffix this)
    ++ lit "/" ++ path ++ lit "?api-version=2019-05-06"
    ++ match options with
       | [] => []
       | c :: _ => if c =? 38 then options else 38 :: options
       end.

(** ** Further definitions: failures, frames and the module loader *)

Section Failures.
Context {NU : Numbers}.

(** The failure [error] normalizes to the string [m]: its nested message
    is the non-empty string [m], or its nested message is falsy and [m]
    is ["Error: "] followed by its own message, a non-empty string. *)
Definition normalizes_to (h : heap) (error : any) (m : jsstring) : Prop :=
  error ≠ VUndefined ∧ error ≠ VNull ∧
  (nested_message h error = VStr m ∧ m ≠ []
   ∨ ToBoolean (nested_message h error) = false
     ∧ ∃ own, peek h error (lit "message") = VStr own ∧ own ≠ []
              ∧ m = lit "Error: " ++ own).

(** A transport whose three operations only add objects to the store. *)
Definition transport_extends {T} {TR : Transport T} : Prop :=
  (∀ u cfg, extends (Axios_get u cfg))
  ∧ (∀ u d cfg, extends (Axios_post u d cfg))
  ∧ (∀ u d cfg, extends (Axios_put u d cfg)).

(** The headers of the configuration [httpPut] hands to Axios: those of
    every request, and [if-match] for a truthy token. *)
Definition put_headers (this : SimpleSearchClient) (etag : option jsstring)
  : gmap jsstring jsstring :=
  match etag with
  | Some (c :: e) =>
      <[lit "if-match" := c :: e]> (headers (makeRequestConfig this))
  | _ => headers (makeRequestConfig this)
  end.

(** *** [getCoreNodeModule] *)

(** What the function takes from its host: [vscode.env.appRoot] and
    [require], which returns the module or throws. *)
Class Host := {
  appRoot : jsstring;
  require : jsstring → M any
}.

(** Two attempts in a row, each in its own [try] whose [catch] ignores
    the error; the first that loads returns, and [undefined] is what is
    left when both have failed. *)
Definition getCoreNodeModule `{Host} (moduleName : jsstring) : M any :=
  try_catch (require (appRoot ++ lit "/node_modules.asar/" ++ moduleName))
    (λ _,
       try_catch (require (appRoot ++ lit "/node_modules/" ++ moduleName))
         (λ _, mret VUndefined)).

End Failures.

(** A transport that rejects every request with [e]. *)
Definition rejecting {T} (e : @any sample_numbers)
  : @Transport sample_numbers T :=
  {| Axios_get := λ _ _, throw e;
     Axios_post := λ _ _ _, throw e;
     Axios_put := λ _ _ _, throw e |}.

(** A host where only [/app/node_modules/keytar] can be loaded. *)
Definition sample_host : @Host sample_numbers :=
  {| appRoot := lit "/app";
     require := λ p,
       if bool_decide (p = lit "/app/node_modules/keytar")
       then alloc (ordinary ∅)
       else throw (VStr (lit "MODULE_NOT_FOUND")) |}.

(** * Properties *)

(** ** Strings and URLs *)

Lemma before_app (sep : N) (s t : jsstring) :
  sep ∉ s → before sep (s ++ t) = s ++ before sep t.
Proof.
  induction s as [|c s IH]; intros Hs; [done|].
  apply not_elem_of_cons in Hs as [Hc Hs]. simpl.
  destruct (N.eqb_spec c sep); [congruence|]. by rewrite IH.
Qed.

Lemma after_app (sep : N) (s t : jsstring) :
  sep ∉ s → after sep (s ++ t) = after sep t.
Proof.
  induction s as [|c s IH]; intros Hs; [done|].
  apply not_elem_of_cons in Hs as [Hc Hs]. simpl.
  destruct (N.eqb_spec c sep); [congruence|]. by apply IH.
Qed.

Lemma after_here (sep : N) (s : jsstring) : after sep (sep :: s) = Some s.
Proof. simpl. by rewrite N.eqb_refl. Qed.

Lemma split_on_nonempty (sep : N) (s : jsstring) : split_on sep s ≠ [].
Proof.
  destruct s as [|c s]; [done|]. simpl.
  destruct (c =? sep); [done|]. by destruct (split_on sep s).
Qed.

Lemma split_on_app (sep : N) (s t : jsstring) :
  sep ∉ s → split_on sep (s ++ sep :: t) = s :: split_on sep t.
Proof.
  induction s as [|c s IH]; intros Hs.
  - simpl. by rewrite N.eqb_refl.
  - apply not_elem_of_cons in Hs as [Hc Hs]. simpl.
    destruct (N.eqb_spec c sep); [congruence|]. by rewrite IH.
Qed.

Lemma split_on_whole (sep : N) (s : jsstring) :
  sep ∉ s → split_on sep s = [s].
Proof.
  induction s as [|c s IH]; intros Hs; [done|].
  apply not_elem_of_cons in Hs as [Hc Hs]. simpl.
  destruct (N.eqb_spec c sep); [congruence|]. by rewrite IH.
Qed.

Lemma before_cons_ne (sep c : N) (s : jsstring) :
  c ≠ sep → before sep (c :: s) = c :: before sep s.
Proof. intros Hc. simpl. by destruct (N.eqb_spec c sep). Qed.

(** The suffix the builder uses: the supplied one unless it is empty. *)
Lemma or_default_cases (s : option jsstring) (d : jsstring) :
  or_default s d = match s with Some (c :: r) => c :: r | _ => d end.
Proof. by destruct s as [[|c r]|]. Qed.

Lemma makeUrl_options (this : SimpleSearchClient) (path options : jsstring) :
  makeUrl this path options =
    lit "https://" ++ serviceName this ++ lit "."
      ++ or_default (cloudSuffix this) (lit "search.windows.net")
      ++ lit "/" ++ path ++ lit "?api-version=" ++ API_VERSION
      ++ match options with
         | [] => []
         | c :: _ => if c =? 38 then options else 38 :: options
         end.
Proof.
  unfold makeUrl. do 8 f_equal.
  destruct options as [|c rest]; [done|].
  rewrite bool_decide_true by done. simpl.
  destruct (N.eqb_spec c 38) as [->|Hc]; [done|].
  rewrite bool_decide_true; [done|]. intros [=]. done.
Qed.

(** The parameters of a built URL: the version, then the fragment's. *)
Lemma makeUrl_parameters (this : SimpleSearchClient) (path options : jsstring) :
  let host := serviceName this
                ++ or_default (cloudSuffix this) (lit "search.windows.net")
                ++ path in
  63 ∉ host → 35 ∉ host →
  url_parameters (makeUrl this path options)
  = lit "api-version=2019-05-06" :: own_parameters options.
Proof.
  intros host Hq Hh. unfold host in *. clear host.
  rewrite !not_elem_of_app in Hq, Hh.
  destruct Hq as (Hq1 & Hq2 & Hq3), Hh as (Hh1 & Hh2 & Hh3).
  rewrite makeUrl_options. unfold url_parameters.
  set (tail := match options with [] => [] | c :: _ => _ end).
  assert (Hlit : ∀ s : string, 35 ∉ lit s → 63 ∉ lit s → ∀ r,
    after 63 (before 35 (lit s ++ r)) = after 63 (before 35 r)).
  { intros s ? ? r. rewrite before_app by done. by rewrite after_app. }
  assert (Hvar : ∀ s : jsstring, 35 ∉ s → 63 ∉ s → ∀ r,
    after 63 (before 35 (s ++ r)) = after 63 (before 35 r)).
  { intros s ? ? r. rewrite before_app by done. by rewrite after_app. }
  rewrite Hlit by by_evaluation.
  rewrite Hvar by done.
  rewrite Hlit by by_evaluation.
  rewrite Hvar by done.
  rewrite Hlit by by_evaluation.
  rewrite Hvar by done.
  change (lit "?api-version=" ++ API_VERSION ++ tail)
    with (63 :: lit "api-version=2019-05-06" ++ tail).
  rewrite before_cons_ne by done.
  rewrite before_app by by_evaluation.
  rewrite after_here.
  unfold tail, own_parameters. destruct options as [|c rest].
  - change (before 35 []) with (@nil N).
    rewrite app_nil_r. rewrite split_on_whole; [done|]. by_evaluation.
  - destruct (N.eqb_spec c 38) as [->|Hc].
    + rewrite before_cons_ne by done.
      rewrite split_on_app; [done|]. by_evaluation.
    + rewrite before_cons_ne by done.
      rewrite split_on_app; [done|]. by_evaluation.
Qed.

(** C5 (amended).  The built URL is
    [https://{serviceName}.{suffix}/{path}?api-version=2019-05-06]
    followed by the fragment, where the suffix is the supplied cloud
    suffix when that is a non-empty string and the default suffix
    otherwise (none supplied, or an empty one).  An empty fragment
    appends nothing, a fragment that starts with [&] is appended
    unchanged, and any other fragment gets exactly one [&] before it.
    Whenever the supplied suffix is not the empty string this is the URL
    of the specification.  When service name, suffix and path hold no
    [?] and no [#], the URL's parameters are the version followed by the
    fragment's own, so it has exactly one [api-version] parameter
    precisely when the fragment brings none. *)
Theorem makeUrl_built (this : SimpleSearchClient) (path : jsstring) :
  let suffix := match cloudSuffix this with
                | Some (c :: s) => c :: s
                | _ => lit "search.windows.net"
                end in
  let base := lit "https://" ++ serviceName this ++ lit "." ++ suffix
                ++ lit "/" ++ path ++ lit "?api-version=2019-05-06" in
  makeUrl this path empty_string = base
  ∧ (∀ rest, makeUrl this path (lit "&" ++ rest) = base ++ lit "&" ++ rest)
  ∧ (∀ c rest, c ≠ 38 →
       makeUrl this path (c :: rest) = base ++ lit "&" ++ c :: rest)
  ∧ (∀ options, cloudSuffix this ≠ Some empty_string →
       makeUrl this path options = spec_makeUrl this path options)
  ∧ (∀ options,
       63 ∉ serviceName this ++ suffix ++ path →
       35 ∉ serviceName this ++ suffix ++ path →
       count_parameter (lit "api-version")
         (url_parameters (makeUrl this path options))
       = S (count_parameter (lit "api-version") (own_parameters options))).
Proof.
  intros suffix base.
  assert (Hbase : ∀ tail, base ++ tail =
    lit "https://" ++ serviceName this ++ lit "."
      ++ or_default (cloudSuffix this) (lit "search.windows.net")
      ++ lit "/" ++ path ++ lit "?api-version=" ++ API_VERSION ++ tail).
  { intros tail. unfold base, suffix. rewrite or_default_cases.
    by rewrite <- !app_assoc. }
  repeat split.
  - rewrite makeUrl_options, <- Hbase. by rewrite app_nil_r.
  - intros rest. by rewrite makeUrl_options, <- Hbase.
  - intros c rest Hc. rewrite makeUrl_options, <- Hbase.
    by destruct (N.eqb_spec c 38).
  - intros options Hs. rewrite makeUrl_options. unfold spec_makeUrl.
    replace (or_default (cloudSuffix this) (lit "search.windows.net"))
      with (default (lit "search.windows.net") (cloudSuffix this))
      by (by destruct (cloudSuffix this) as [[|c s]|]).
    reflexivity.
  - intros options Hq Hh. unfold suffix in Hq, Hh.
    rewrite <- or_default_cases in Hq, Hh.
    by rewrite makeUrl_parameters.
Qed.

Lemma makeUrl_built_witness :
  count_parameter (lit "api-version")
    (url_parameters
       (makeUrl sample_client (lit "indexes/hotels/docs") (lit "search=*")))
  = 1%nat
  ∧ makeUrl sample_client (lit "indexes/hotels/docs") (lit "search=*")
    = lit "https://svc.search.windows.net/indexes/hotels/docs?api-version=2019-05-06&search=*".
Proof.
  destruct (makeUrl_built sample_client (lit "indexes/hotels/docs"))
    as (_ & _ & Hother & _ & Hcount).
  split.
  - rewrite Hcount.
    + vm_compute. reflexivity.
    + apply (bool_decide_unpack _). vm_compute. exact I.
    + apply (bool_decide_unpack _). vm_compute. exact I.
  - change (lit "search=*") with (115 :: lit "earch=*").
    rewrite Hother.
    + vm_compute. reflexivity.
    + discriminate.
Defined.

(** C5, as stated, fails: a client constructed with the empty string as
    its cloud suffix gets the default suffix, not the supplied one, and
    a fragment that itself carries [api-version] yields a URL with two
    such parameters. *)
Lemma makeUrl_claim_counterexample :
  let this := {| serviceName := lit "svc"; apikey := lit "secret";
                 cloudSuffix := Some empty_string; userAgent := lit "agent" |} in
  makeUrl this (lit "indexes") empty_string
    = lit "https://svc.search.windows.net/indexes?api-version=2019-05-06"
  ∧ makeUrl this (lit "indexes") empty_string
    ≠ spec_makeUrl this (lit "indexes") empty_string
  ∧ count_parameter (lit "api-version")
      (url_parameters
         (makeUrl sample_client (lit "indexes") (lit "api-version=1")))
    = 2%nat.
Proof. vm_compute. repeat split. discriminate. Qed.

(** ** Percent-encoding *)

Lemma uriUnreserved_ascii (c : N) : uriUnreserved c = true → c < 128.
Proof.
  unfold uriUnreserved, in_range.
  rewrite !orb_true_iff, !andb_true_iff, !N.leb_le, bool_decide_eq_true.
  intros [[[?|?]|?]|Hc]; [lia..|].
  change (lit "-_.!~*'()") with [45; 95; 46; 33; 126; 42; 39; 40; 41] in Hc.
  rewrite !elem_of_cons in Hc. rewrite elem_of_nil in Hc. lia.
Qed.

Lemma uriUnreserved_no_surrogate (c : N) :
  uriUnreserved c = true →
  is_trailing_surrogate c = false ∧ is_leading_surrogate c = false.
Proof.
  intros Hc%uriUnreserved_ascii. unfold is_trailing_surrogate,
    is_leading_surrogate, in_range.
  rewrite !andb_false_iff, !N.leb_gt. lia.
Qed.

Lemma hex_digit_unreserved (n : N) : uriUnreserved (hex_digit n) = true.
Proof.
  unfold hex_digit. generalize (N.to_nat (n mod 16)). intros k.
  do 16 (destruct k as [|k]; [by vm_compute|]). by destruct k.
Qed.

Lemma escape_code_point_units (cp : N) :
  Forall component_unit (escape_code_point cp).
Proof.
  unfold escape_code_point. apply Forall_concat, Forall_fmap, Forall_forall.
  intros octet _. unfold percent.
  apply Forall_cons; split; [by right|].
  apply Forall_cons; split; [left; apply hex_digit_unreserved|].
  apply Forall_cons; split; [left; apply hex_digit_unreserved|].
  apply Forall_nil_2.
Qed.

Lemma encodeURIComponent_units_bounded (n : nat) :
  ∀ s e, (length s ≤ n)%nat → encodeURIComponent s = Some e →
         Forall component_unit e.
Proof.
  induction n as [|n IH]; intros s e Hn.
  { destruct s; [|simpl in Hn; lia]. intros [= <-]. constructor. }
  destruct s as [|c rest]; [intros [= <-]; constructor|].
  simpl in Hn. simpl.
  destruct (uriUnreserved c) eqn:Hc.
  { destruct (encodeURIComponent rest) as [e'|] eqn:He; [|done].
    intros [= <-]. constructor; [by left|]. eapply IH; [|done]. lia. }
  destruct (is_trailing_surrogate c); [done|].
  destruct (is_leading_surrogate c).
  - destruct rest as [|d rest']; [done|].
    destruct (is_trailing_surrogate d); [|done].
    destruct (encodeURIComponent rest') as [e'|] eqn:He; [|done].
    intros [= <-]. apply Forall_app. split; [apply escape_code_point_units|].
    eapply IH; [|done]. simpl in Hn. lia.
  - destruct (encodeURIComponent rest) as [e'|] eqn:He; [|done].
    intros [= <-]. apply Forall_app. split; [apply escape_code_point_units|].
    eapply IH; [|done]. lia.
Qed.

Lemma encodeURIComponent_units (s e : jsstring) :
  encodeURIComponent s = Some e → Forall component_unit e.
Proof. by apply (encodeURIComponent_units_bounded (length s)). Qed.

Lemma component_unit_excludes (c : N) (e : jsstring) :
  uriUnreserved c = false → c ≠ 37 → Forall component_unit e → c ∉ e.
Proof.
  intros Hc H37 He Hin. rewrite Forall_forall in He.
  destruct (He c Hin) as [Hu| ->]; congruence.
Qed.

Lemma encodeURIComponent_defined_bounded (n : nat) :
  ∀ s, (length s ≤ n)%nat →
       (is_Some (encodeURIComponent s) ↔ well_formed s = true).
Proof.
  induction n as [|n IH]; intros s Hn.
  { destruct s; [|simpl in Hn; lia]. simpl. split; [done|by eexists]. }
  destruct s as [|c rest]; [simpl; split; [done|by eexists]|].
  simpl in Hn. simpl.
  destruct (uriUnreserved c) eqn:Hc.
  { destruct (uriUnreserved_no_surrogate c Hc) as [-> ->].
    rewrite <- IH by lia. by rewrite fmap_is_Some. }
  destruct (is_trailing_surrogate c); [split; [by intros [? ?]|done]|].
  destruct (is_leading_surrogate c).
  - destruct rest as [|d rest']; [split; [by intros [? ?]|done]|].
    destruct (is_trailing_surrogate d); simpl.
    + simpl in Hn. rewrite <- IH by lia. by rewrite fmap_is_Some.
    + split; [by intros [? ?]|done].
  - rewrite <- IH by lia. by rewrite fmap_is_Some.
Qed.

Lemma encodeURIComponent_defined (s : jsstring) :
  is_Some (encodeURIComponent s) ↔ well_formed s = true.
Proof. by apply (encodeURIComponent_defined_bounded (length s)). Qed.

Lemma encodeURIComponent_unreserved (s : jsstring) :
  Forall (λ c, uriUnreserved c = true) s → encodeURIComponent s = Some s.
Proof.
  induction 1 as [|c s Hc _ IH]; [done|]. simpl. by rewrite Hc, IH.
Qed.

(** ** Conditional updates *)

Section Properties.
Context `{NU : Numbers} `{EN : !Engine}.

(** C9.  [updateResource] attaches the [if-match] header only for a
    truthy token: with the empty string as token the request is the one
    sent with no token at all, and that request carries no [if-match]
    header; a non-empty token is attached as [if-match]. *)
Theorem updateResource_if_match `{TR : !Transport any}
    (this : SimpleSearchClient) (resource name : jsstring) (content : any) :
  let url := makeUrl this (resource ++ lit "/" ++ name) empty_string in
  updateResource this resource name content (Some empty_string)
    = updateResource this resource name content None
  ∧ updateResource this resource name content None
    = try_catch (Axios_put url content (makeRequestConfig this))
        rethrow_normalized
  ∧ headers (makeRequestConfig this) !! lit "if-match" = None
  ∧ ∀ c e,
      updateResource this resource name content (Some (c :: e))
      = try_catch
          (Axios_put url content
             {| headers := <[lit "if-match" := c :: e]>
                             (headers (makeRequestConfig this)) |})
          rethrow_normalized.
Proof.
  split; [reflexivity|]. split; [reflexivity|]. split; [|reflexivity].
  unfold makeRequestConfig, headers.
  rewrite lookup_insert_ne by (by vm_compute).
  apply lookup_singleton_ne. by vm_compute.
Qed.

(** ** The error normalizer *)

Lemma bind_run {A B} (m : M A) (f : A → M B) (h : heap) :
  (m ≫= f) h = match m h with
               | (Ok a, h') => f a h'
               | (Throw e, h') => (Throw e, h')
               end.
Proof. reflexivity. Qed.

Lemma truthy_not_nullish (v : any) :
  ToBoolean v = true → v ≠ VUndefined ∧ v ≠ VNull.
Proof. by destruct v. Qed.

Lemma get_peek (v : any) (k : jsstring) (h : heap) :
  v ≠ VUndefined → v ≠ VNull → get v k h = (Ok (peek h v k), h).
Proof. by destruct v. Qed.

Lemma get_truthy (v : any) (k : jsstring) (h : heap) :
  ToBoolean v = true → get v k h = (Ok (peek h v k), h).
Proof. intros [? ?]%truthy_not_nullish. by apply get_peek. Qed.

Lemma get_path_step (v x : any) (ks : list jsstring) (k : jsstring) (h : heap) :
  get_path v ks h = (Ok x, h) → ToBoolean x = true →
  get_path v (ks ++ [k]) h = (Ok (peek h x k), h).
Proof.
  intros Hks Hx. unfold get_path in *. rewrite foldl_app. cbn [foldl].
  rewrite bind_run, Hks. by apply get_truthy.
Qed.

Lemma get_path_first (v : any) (k : jsstring) (h : heap) :
  v ≠ VUndefined → v ≠ VNull → get_path v [k] h = (Ok (peek h v k), h).
Proof. intros. unfold get_path. cbn [foldl]. by apply get_peek. Qed.

Lemma and_then_run (a b : M any) (x : any) (h h' : heap) :
  a h = (Ok x, h') →
  and_then a b h = if ToBoolean x then b h' else (Ok x, h').
Proof.
  intros Ha. unfold and_then. rewrite bind_run, Ha.
  by destruct (ToBoolean x).
Qed.

(** The guard of [extractErrorMessage] reads the chain link by link and
    stops at the first falsy one. *)
Lemma guard_run (error : any) (h : heap) :
  error ≠ VUndefined → error ≠ VNull →
  ∃ c, and_then (and_then (and_then
         (get_path error [lit "response"])
         (get_path error [lit "response"; lit "data"]))
         (get_path error [lit "response"; lit "data"; lit "error"]))
         (get_path error
            [lit "response"; lit "data"; lit "error"; lit "message"]) h
       = (Ok c, h)
       ∧ ToBoolean c = carries_message h error.
Proof.
  intros Hu Hn. unfold carries_message, nested_message.
  set (A := get_path error [lit "response"]).
  set (B := get_path error [lit "response"; lit "data"]).
  set (C := get_path error [lit "response"; lit "data"; lit "error"]).
  set (D := get_path error
              [lit "response"; lit "data"; lit "error"; lit "message"]).
  set (r1 := peek h error (lit "response")).
  set (r2 := peek h r1 (lit "data")).
  set (r3 := peek h r2 (lit "error")).
  set (r4 := peek h r3 (lit "message")).
  assert (P1 : A h = (Ok r1, h)) by (by apply get_path_first).
  destruct (ToBoolean r1) eqn:H1; cycle 1.
  { exists r1. split; [|done].
    rewrite (and_then_run _ _ r1 h h); [by rewrite H1|].
    rewrite (and_then_run _ _ r1 h h); [by rewrite H1|].
    rewrite (and_then_run _ _ r1 h h); [by rewrite H1|done]. }
  assert (P2 : B h = (Ok r2, h)) by exact (get_path_step _ _ _ _ _ P1 H1).
  assert (Q2 : and_then A B h = (Ok r2, h)).
  { rewrite (and_then_run _ _ r1 h h) by done. by rewrite H1. }
  destruct (ToBoolean r2) eqn:H2; cycle 1.
  { exists r2. split; [|done].
    rewrite (and_then_run _ _ r2 h h); [by rewrite H2|].
    rewrite (and_then_run _ _ r2 h h); [by rewrite H2|done]. }
  assert (P3 : C h = (Ok r3, h)) by exact (get_path_step _ _ _ _ _ P2 H2).
  assert (Q3 : and_then (and_then A B) C h = (Ok r3, h)).
  { rewrite (and_then_run _ _ r2 h h) by done. by rewrite H2. }
  destruct (ToBoolean r3) eqn:H3; cycle 1.
  { exists r3. split; [|done].
    rewrite (and_then_run _ _ r3 h h); [by rewrite H3|done]. }
  assert (P4 : D h = (Ok r4, h)) by exact (get_path_step _ _ _ _ _ P3 H3).
  exists r4. split; [|done].
  rewrite (and_then_run _ _ r3 h h) by done. by rewrite H3.
Qed.

Lemma message_path_run (error : any) (h : heap) :
  error ≠ VUndefined → error ≠ VNull → carries_message h error = true →
  get_path error [lit "response"; lit "data"; lit "error"; lit "message"] h
  = (Ok (nested_message h error), h).
Proof.
  intros Hu Hn. unfold carries_message, nested_message.
  rewrite !andb_true_iff. intros [[[H1 H2] H3] _].
  pose proof (get_path_first error (lit "response") h Hu Hn) as P1.
  pose proof (get_path_step _ _ _ (lit "data") _ P1 H1) as P2.
  pose proof (get_path_step _ _ _ (lit "error") _ P2 H2) as P3.
  exact (get_path_step _ _ _ (lit "message") _ P3 H3).
Qed.

Lemma fallback_run (error : any) (h : heap) :
  error ≠ VUndefined → error ≠ VNull →
  or_else (get error (lit "message")) (mret error) h
  = (Ok (own_message_or_self h error), h).
Proof.
  intros Hu Hn. unfold or_else, own_message_or_self.
  rewrite bind_run, get_peek by done.
  by destruct (ToBoolean (peek h error (lit "message"))).
Qed.

Lemma extractErrorMessage_run (error : any) (h : heap) :
  error ≠ VUndefined → error ≠ VNull →
  extractErrorMessage error h =
    if carries_message h error then (Ok (nested_message h error), h)
    else (s ← ToString (own_message_or_self h error);
          mret (VStr (lit "Error: " ++ s))) h.
Proof.
  intros Hu Hn. unfold extractErrorMessage.
  destruct (guard_run error h Hu Hn) as (c & Hc & Hb).
  rewrite bind_run, Hc, Hb.
  destruct (carries_message h error) eqn:Hcm.
  - by apply message_path_run.
  - by rewrite bind_run, fallback_run.
Qed.

Lemma extractErrorMessage_nullish (error : any) :
  error = VUndefined ∨ error = VNull →
  extractErrorMessage error = raise (ReadOfNullish error (lit "response")).
Proof. by intros [-> | ->]. Qed.

Lemma peek_truthy (h : heap) (v : any) (k : jsstring) :
  ToBoolean (peek h v k) = true → ToBoolean v = true.
Proof. by destruct v. Qed.

(** The guard holds exactly when the nested message is truthy: a link
    that is missing or not an object has no properties to go on with. *)
Lemma carries_message_nested (h : heap) (error : any) :
  carries_message h error = ToBoolean (nested_message h error).
Proof.
  unfold carries_message.
  destruct (ToBoolean (nested_message h error)) eqn:H4;
    [|by rewrite andb_false_r].
  pose proof (peek_truthy _ _ _ H4) as H3.
  pose proof (peek_truthy _ _ _ H3) as H2.
  pose proof (peek_truthy _ _ _ H2) as H1.
  by rewrite H1, H2, H3.
Qed.

(** C3 (amended).  For every failure value other than [undefined] and
    [null]: when [response.data.error.message] is truthy (for a string:
    non-empty) the normalizer returns it verbatim; in every other case,
    an empty nested message included, it returns ["Error: "] followed by
    the failure's own message when that is truthy, and by the
    stringified failure otherwise. *)
Theorem extractErrorMessage_priority (error : any) (h : heap) :
  error ≠ VUndefined → error ≠ VNull →
  (ToBoolean (nested_message h error) = true →
     extractErrorMessage error h = (Ok (nested_message h error), h))
  ∧ (ToBoolean (nested_message h error) = false →
       extractErrorMessage error h
       = (s ← ToString (own_message_or_self h error);
          mret (VStr (lit "Error: " ++ s))) h
       ∧ (∀ m, peek h error (lit "message") = VStr m → m ≠ [] →
            extractErrorMessage error h = (Ok (VStr (lit "Error: " ++ m)), h))
       ∧ (ToBoolean (peek h error (lit "message")) = false →
            own_message_or_self h error = error)).
Proof.
  intros Hu Hn. rewrite extractErrorMessage_run by done.
  rewrite carries_message_nested. split; intros ->; [done|].
  split; [done|]. split.
  - intros m Hm Hne. unfold own_message_or_self. rewrite Hm.
    by destruct m.
  - intros Hm. unfold own_message_or_self. by rewrite Hm.
Qed.

(** C4 (amended).  For [undefined] and [null] the normalizer raises a
    TypeError.  For every other failure value it returns without
    raising and without touching the store, provided the conversion to
    string of an object that the fallback may need does not raise; what
    it returns is the nested message itself when that is truthy (a
    string if the service sent one), and a string otherwise. *)
Theorem extractErrorMessage_returns (error : any) (h : heap) :
  (error = VUndefined ∨ error = VNull →
     extractErrorMessage error h
     = (Throw (VRef (fresh_loc h)),
        <[fresh_loc h :=
            error_instance (lit "TypeError")
              (fault_message (ReadOfNullish error (lit "response")))]> h))
  ∧ (error ≠ VUndefined → error ≠ VNull →
     (ToBoolean (nested_message h error) = false →
      ∀ l, own_message_or_self h error = VRef l →
           is_Some (ObjectToString h l)) →
     ∃ v, extractErrorMessage error h = (Ok v, h)
          ∧ if ToBoolean (nested_message h error)
            then v = nested_message h error
            else ∃ s, v = VStr s).
Proof.
  split.
  - intros Hnull. by rewrite extractErrorMessage_nullish.
  - intros Hu Hn Hstr. rewrite extractErrorMessage_run by done.
    rewrite carries_message_nested.
    destruct (ToBoolean (nested_message h error)) eqn:Hm; [by eexists|].
    rewrite bind_run.
    destruct (own_message_or_self h error) as [| |b|n|s|l] eqn:Hx;
      try (eexists; split; [reflexivity|by eexists]).
    destruct (Hstr eq_refl l eq_refl) as [s Hs].
    unfold ToString. rewrite Hs. eexists; split; [reflexivity|by eexists].
Qed.

(** ** Batch submission *)

Lemma throw_new_Error_run {A} (message : jsstring) (h : heap) :
  (e ← new_Error (VStr message); throw e) h = @Error_thrown _ A message h.
Proof. reflexivity. Qed.

Section Batch.
Context `{TR : !Transport (CollectionResponse BatchResponseEntry)}.
Context (this : SimpleSearchClient) (indexName : jsstring).

(** What [indexBatch] makes of a resolved POST. *)
Lemma indexBatch_run (batch : any) (h h1 : heap)
    (r : AxiosResponse (CollectionResponse BatchResponseEntry)) :
  Axios_post (docs_index_url this indexName) batch (makeRequestConfig this) h
    = (Ok r, h1) →
  indexBatch this indexName batch h =
    match value (data r) with
    | [entry] =>
        if status entry then (Ok (), h1)
        else Error_thrown
               (lit "Failed to process document: " ++ errorMessage entry) h1
    | _ => Error_thrown (lit
             "Unexpected response from service while attempting to process document")
             h1
    end.
Proof.
  intros Hpost. unfold indexBatch.
  rewrite bind_run. unfold try_catch at 1. rewrite bind_run.
  unfold httpPost, try_catch at 1.
  change (makeUrl this (lit "indexes/" ++ indexName ++ lit "/docs/index")
            empty_string) with (docs_index_url this indexName).
  rewrite Hpost.
  cbn [mret M_ret]. rewrite bind_run.
  destruct (value (data r)) as [|entry [|entry' entries]] eqn:Hv.
  - reflexivity.
  - rewrite bool_decide_false by (cbn [length]; auto).
    change ([entry] !! 0%nat) with (Some entry).
    cbv beta iota. by destruct (status entry).
  - reflexivity.
Qed.

Lemma spread_run (v : any) (h : heap) :
  spread v h
  = (Ok (VRef (fresh_loc h)),
     <[fresh_loc h := ordinary (own_enumerable h v)]> h).
Proof. reflexivity. Qed.

Lemma alloc_run (o : object) (h : heap) :
  alloc o h = (Ok (VRef (fresh_loc h)), <[fresh_loc h := o]> h).
Proof. reflexivity. Qed.

Lemma fresh_loc_fresh (h : heap) : h !! fresh_loc h = None.
Proof. apply not_elem_of_dom, is_fresh. Qed.

(** Assigning a property to the object that was created last. *)
Lemma set_created_run (o : object) (k : jsstring) (x : any) (h : heap) :
  set (VRef (fresh_loc h)) k x (<[fresh_loc h := o]> h)
  = (Ok (),
     <[fresh_loc h :=
         if bool_decide (k = lit "__proto__")
            && bool_decide (props o !! k = None)
         then o
         else {| cls := cls o; props := <[k := x]> (props o) |}]> h).
Proof. unfold set. by rewrite alter_insert_eq. Qed.

Lemma uploadDocument_run (doc : any) (createNew : bool) (h : heap) :
  let c := fresh_loc h in
  let h1 := <[c := ordinary
                (<[lit "@search.action" :=
                     VStr (if createNew then lit "mergeOrUpload"
                           else lit "merge")]>
                   (own_enumerable h doc))]> h in
  let a := fresh_loc h1 in
  let h2 := <[a := array [VRef c]]> h1 in
  let b := fresh_loc h2 in
  let h3 := <[b := ordinary {[ lit "value" := VRef a ]}]> h2 in
  uploadDocument this indexName doc createNew h
  = indexBatch this indexName (VRef b) h3.
Proof.
  intros c h1 a h2 b h3. unfold uploadDocument.
  rewrite bind_run, spread_run. rewrite bind_run, set_created_run.
  rewrite bool_decide_false by (by vm_compute). cbn [andb].
  rewrite bind_run, alloc_run. rewrite bind_run, alloc_run.
  reflexivity.
Qed.

Lemma deleteDocument_run (keyName : jsstring) (key : any) (h : heap) :
  let d := fresh_loc h in
  let stamped : gmap jsstring any :=
    {[ lit "@search.action" := VStr (lit "delete") ]} in
  let h1 := <[d := ordinary (if bool_decide (keyName = lit "__proto__")
                             then stamped
                             else <[keyName := key]> stamped)]> h in
  let a := fresh_loc h1 in
  let h2 := <[a := array [VRef d]]> h1 in
  let b := fresh_loc h2 in
  let h3 := <[b := ordinary {[ lit "value" := VRef a ]}]> h2 in
  deleteDocument this indexName keyName key h
  = indexBatch this indexName (VRef b) h3.
Proof.
  intros d stamped h1 a h2 b h3. unfold deleteDocument.
  rewrite bind_run, alloc_run. rewrite bind_run, set_created_run.
  rewrite bool_decide_false by (by vm_compute). cbn [andb].
  rewrite bind_run. rewrite set_created_run. cbn [props cls ordinary].
  change (<[lit "@search.action":=VStr (lit "delete")]> ∅) with stamped.
  assert (Hrecord :
    (if bool_decide (keyName = lit "__proto__")
        && bool_decide (stamped !! keyName = None)
     then {| cls := ClsObject; props := stamped |}
     else {| cls := ClsObject; props := <[keyName := key]> stamped |})
    = ordinary (if bool_decide (keyName = lit "__proto__")
                then stamped else <[keyName := key]> stamped)).
  { case_bool_decide as Hk; [|done]. subst keyName.
    rewrite bool_decide_true; [done|].
    apply lookup_singleton_ne. by vm_compute. }
  rewrite Hrecord.
  rewrite bind_run, alloc_run. rewrite bind_run, alloc_run.
  reflexivity.
Qed.

(** C1.  Whenever the POST resolves with an envelope whose [value] does
    not hold exactly one entry, [indexBatch] throws the
    protocol-violation Error, whatever the entries say.
    [uploadDocument] and [deleteDocument] always end in [indexBatch] on
    the batch they built, so they throw the same Error whenever the POST
    of that batch resolves with such an envelope. *)
Theorem indexBatch_entry_count :
  let violation := lit
    "Unexpected response from service while attempting to process document" in
  (∀ batch h r h1,
     Axios_post (docs_index_url this indexName) batch (makeRequestConfig this) h
       = (Ok r, h1) →
     length (value (data r)) ≠ 1%nat →
     indexBatch this indexName batch h = Error_thrown violation h1)
  ∧ (∀ doc createNew h, ∃ batch h',
       uploadDocument this indexName doc createNew h
         = indexBatch this indexName batch h'
       ∧ ∀ r h1,
           Axios_post (docs_index_url this indexName) batch
             (makeRequestConfig this) h' = (Ok r, h1) →
           length (value (data r)) ≠ 1%nat →
           uploadDocument this indexName doc createNew h
             = Error_thrown violation h1)
  ∧ (∀ keyName key h, ∃ batch h',
       deleteDocument this indexName keyName key h
         = indexBatch this indexName batch h'
       ∧ ∀ r h1,
           Axios_post (docs_index_url this indexName) batch
             (makeRequestConfig this) h' = (Ok r, h1) →
           length (value (data r)) ≠ 1%nat →
           deleteDocument this indexName keyName key h
             = Error_thrown violation h1).
Proof.
  intros violation.
  assert (Hcount : ∀ batch h r h1,
     Axios_post (docs_index_url this indexName) batch (makeRequestConfig this) h
       = (Ok r, h1) →
     length (value (data r)) ≠ 1%nat →
     indexBatch this indexName batch h = Error_thrown violation h1).
  { intros batch h r h1 Hpost Hlen. rewrite (indexBatch_run _ _ _ _ Hpost).
    by destruct (value (data r)) as [|entry [|entry' entries]]. }
  split; [exact Hcount|]. split.
  - intros doc createNew h. do 2 eexists.
    split; [apply uploadDocument_run|].
    intros r h1 Hpost Hlen. rewrite uploadDocument_run. by eapply Hcount.
  - intros keyName key h. do 2 eexists.
    split; [apply deleteDocument_run|].
    intros r h1 Hpost Hlen. rewrite deleteDocument_run. by eapply Hcount.
Qed.

(** C2.  Whenever the POST resolves with exactly one entry whose status
    is false, [indexBatch] throws an Error whose message is
    ["Failed to process document:"], a space, and that entry's
    [errorMessage] as it came. *)
Theorem indexBatch_item_rejected (batch : any) (h h1 : heap)
    (r : AxiosResponse (CollectionResponse BatchResponseEntry))
    (entry : BatchResponseEntry) :
  Axios_post (docs_index_url this indexName) batch (makeRequestConfig this) h
    = (Ok r, h1) →
  value (data r) = [entry] →
  status entry = false →
  indexBatch this indexName batch h
  = Error_thrown
      (lit "Failed to process document:" ++ lit " " ++ errorMessage entry) h1.
Proof.
  intros Hpost Hv Hs. rewrite (indexBatch_run _ _ _ _ Hpost), Hv, Hs.
  reflexivity.
Qed.

Lemma fresh_loc_ne (h : heap) (l : loc) : is_Some (h !! l) → fresh_loc h ≠ l.
Proof. intros [o Ho] <-. by rewrite fresh_loc_fresh in Ho. Qed.

(** C6.  For a document record (an ordinary object [o] at [l]),
    [uploadDocument] submits through [indexBatch] a new object whose only
    property [value] is a new one-element array holding a new object
    with the properties of [o], [@search.action] being set to
    [mergeOrUpload] when [createNew] holds and to [merge] otherwise;
    when the POST of that body resolves with one accepted entry the
    call succeeds. *)
Theorem uploadDocument_batch (l : loc) (o : object) (createNew : bool)
    (h : heap) :
  h !! l = Some o → cls o = ClsObject →
  let action := if createNew then lit "mergeOrUpload" else lit "merge" in
  let c := fresh_loc h in
  let h1 := <[c := ordinary (<[lit "@search.action" := VStr action]> (props o))]> h in
  let a := fresh_loc h1 in
  let h2 := <[a := array [VRef c]]> h1 in
  let b := fresh_loc h2 in
  let h3 := <[b := ordinary {[ lit "value" := VRef a ]}]> h2 in
  uploadDocument this indexName (VRef l) createNew h
    = indexBatch this indexName (VRef b) h3
  ∧ h3 !! b = Some (ordinary {[ lit "value" := VRef a ]})
  ∧ h3 !! a = Some (array [VRef c])
  ∧ h3 !! c
    = Some (ordinary (<[lit "@search.action" := VStr action]> (props o)))
  ∧ ∀ r h4 entry,
      Axios_post (docs_index_url this indexName) (VRef b)
        (makeRequestConfig this) h3 = (Ok r, h4) →
      value (data r) = [entry] → status entry = true →
      uploadDocument this indexName (VRef l) createNew h = (Ok (), h4).
Proof.
  intros Hl Hcls action c h1 a h2 b h3.
  assert (Hrun : uploadDocument this indexName (VRef l) createNew h
                 = indexBatch this indexName (VRef b) h3).
  { rewrite uploadDocument_run. cbn [own_enumerable].
    rewrite Hl. cbn [from_option]. unfold enumerable. by rewrite Hcls. }
  assert (Hac : a ≠ c).
  { apply fresh_loc_ne. unfold h1. rewrite lookup_insert_eq. by eexists. }
  assert (Hba : b ≠ a).
  { apply fresh_loc_ne. unfold h2. rewrite lookup_insert_eq. by eexists. }
  assert (Hbc : b ≠ c).
  { apply fresh_loc_ne. unfold h2, h1.
    rewrite lookup_insert_ne, lookup_insert_eq by done. by eexists. }
  split; [exact Hrun|].
  split; [unfold h3; by rewrite lookup_insert_eq|].
  split; [unfold h3, h2; by rewrite lookup_insert_ne, lookup_insert_eq by done|].
  split; [unfold h3, h2, h1;
          by rewrite !lookup_insert_ne, lookup_insert_eq by done|].
  intros r h4 entry Hpost Hv Hs.
  rewrite Hrun, (indexBatch_run _ _ _ _ Hpost), Hv. by rewrite Hs.
Qed.

(** *** What the calls leave in the store *)

Lemma extends_ret {A} (a : A) : extends (mret a : M A).
Proof. by intros h. Qed.

Lemma extends_throw {A} (e : any) : extends (throw e : M A).
Proof. by intros h. Qed.

Lemma extends_bind {A B} (m : M A) (f : A → M B) :
  extends m → (∀ a, extends (f a)) → extends (m ≫= f).
Proof.
  intros Hm Hf h. rewrite bind_run. specialize (Hm h).
  destruct (m h) as [[a|e] h']; [|done].
  etrans; [exact Hm|apply Hf].
Qed.

Lemma extends_try_catch {A} (m : M A) (handler : any → M A) :
  extends m → (∀ e, extends (handler e)) → extends (try_catch m handler).
Proof.
  intros Hm Hh h. unfold try_catch. specialize (Hm h).
  destruct (m h) as [[a|e] h']; [done|].
  etrans; [exact Hm|apply Hh].
Qed.

Lemma extends_alloc (o : object) : extends (alloc o).
Proof. intros h. apply insert_subseteq, fresh_loc_fresh. Qed.

Lemma extends_raise {A} (f : fault) : extends (raise f : M A).
Proof.
  apply extends_bind; [apply extends_alloc|intros; apply extends_throw].
Qed.

Lemma extends_get (v : any) (k : jsstring) : extends (get v k).
Proof. destruct v; try apply extends_raise; by intros h. Qed.

Lemma extends_ToString (v : any) : extends (ToString v).
Proof.
  destruct v as [| |b|n|s|l]; try (by intros h).
  intros h. unfold ToString.
  destruct (ObjectToString h l); [done|apply extends_raise].
Qed.

Lemma extends_new_Error (message : any) : extends (new_Error message).
Proof.
  destruct message; try apply extends_alloc;
    (apply extends_bind; [apply extends_ToString|intros; apply extends_alloc]).
Qed.

Lemma extends_get_path (v : any) (ks : list jsstring) :
  extends (get_path v ks).
Proof.
  unfold get_path. induction ks as [|k ks IH] using rev_ind.
  - apply extends_ret.
  - rewrite foldl_app. cbn [foldl].
    apply extends_bind; [exact IH|intros; apply extends_get].
Qed.

Lemma extends_and_then (a b : M any) :
  extends a → extends b → extends (and_then a b).
Proof.
  intros Ha Hb. apply extends_bind; [done|].
  intros x. destruct (ToBoolean x); [done|apply extends_ret].
Qed.

Lemma extends_or_else (a b : M any) :
  extends a → extends b → extends (or_else a b).
Proof.
  intros Ha Hb. apply extends_bind; [done|].
  intros x. destruct (ToBoolean x); [apply extends_ret|done].
Qed.

Lemma extends_extractErrorMessage (error : any) :
  extends (extractErrorMessage error).
Proof.
  apply extends_bind.
  { repeat apply extends_and_then; apply extends_get_path. }
  intros c. destruct (ToBoolean c); [apply extends_get_path|].
  apply extends_bind.
  { apply extends_or_else; [apply extends_get|apply extends_ret]. }
  intros x. apply extends_bind; [apply extends_ToString|].
  intros s. apply extends_ret.
Qed.

Lemma extends_rethrow_normalized {A} (error : any) :
  extends (rethrow_normalized error : M A).
Proof.
  apply extends_bind; [apply extends_extractErrorMessage|].
  intros m. apply extends_bind; [apply extends_new_Error|].
  intros e. apply extends_throw.
Qed.

Lemma extends_throw_new_Error {A} (message : any) :
  extends (e ← new_Error message; throw e : M A).
Proof.
  apply extends_bind; [apply extends_new_Error|intros; apply extends_throw].
Qed.

Lemma extends_indexBatch (batch : any) :
  (∀ u d cfg, extends (Axios_post u d cfg)) →
  extends (indexBatch this indexName batch).
Proof.
  intros Hpost. unfold indexBatch. apply extends_bind.
  { apply extends_try_catch.
    - apply extends_bind; [|intros; apply extends_ret].
      apply extends_try_catch; [apply Hpost|].
      intros e. apply extends_rethrow_normalized.
    - intros e. apply extends_bind; [apply extends_extractErrorMessage|].
      intros m. apply extends_bind; [apply extends_ToString|].
      intros s. apply extends_throw_new_Error. }
  intros batchResponse. apply extends_bind.
  { case_bool_decide; [apply extends_throw_new_Error|apply extends_ret]. }
  intros _. destruct (value batchResponse !! 0%nat) as [entry|].
  - destruct (negb (status entry));
      [apply extends_throw_new_Error|apply extends_ret].
  - apply extends_raise.
Qed.

(** C8.  [uploadDocument] stamps the action onto a new object: the copy,
    the array and the batch it submits are objects that did not exist
    before the call, so none of them is the caller's record, and every
    object that existed — the caller's record among them — is unchanged
    in the store the batch is submitted in.  As long as the transport
    itself only adds objects, the same holds when the call is over. *)
Theorem uploadDocument_frame (doc : any) (createNew : bool) (h : heap) :
  let c := fresh_loc h in
  let h1 := <[c := ordinary
                (<[lit "@search.action" :=
                     VStr (if createNew then lit "mergeOrUpload"
                           else lit "merge")]>
                   (own_enumerable h doc))]> h in
  let a := fresh_loc h1 in
  let h2 := <[a := array [VRef c]]> h1 in
  let b := fresh_loc h2 in
  let h3 := <[b := ordinary {[ lit "value" := VRef a ]}]> h2 in
  uploadDocument this indexName doc createNew h
    = indexBatch this indexName (VRef b) h3
  ∧ h ⊆ h3
  ∧ (∀ l, is_Some (h !! l) → l ≠ c ∧ l ≠ a ∧ l ≠ b ∧ h3 !! l = h !! l)
  ∧ ((∀ u d cfg, extends (Axios_post u d cfg)) →
     ∀ l o, h !! l = Some o →
            (uploadDocument this indexName doc createNew h).2 !! l = Some o).
Proof.
  intros c h1 a h2 b h3.
  assert (H01 : h ⊆ h1) by apply insert_subseteq, fresh_loc_fresh.
  assert (H12 : h1 ⊆ h2) by apply insert_subseteq, fresh_loc_fresh.
  assert (H23 : h2 ⊆ h3) by apply insert_subseteq, fresh_loc_fresh.
  assert (H03 : h ⊆ h3) by (etrans; [exact H01|]; etrans; done).
  split; [apply uploadDocument_run|]. split; [exact H03|]. split.
  - intros l [o Ho].
    pose proof (lookup_weaken _ _ _ _ Ho H01) as Ho1.
    pose proof (lookup_weaken _ _ _ _ Ho1 H12) as Ho2.
    pose proof (lookup_weaken _ _ _ _ Ho H03) as Ho3.
    repeat split.
    + intros ->. unfold c in Ho. by rewrite fresh_loc_fresh in Ho.
    + intros ->. unfold a in Ho1. by rewrite fresh_loc_fresh in Ho1.
    + intros ->. unfold b in Ho2. by rewrite fresh_loc_fresh in Ho2.
    + by rewrite Ho, Ho3.
  - intros Hpost l o Ho. rewrite uploadDocument_run. fold c h1 a h2 b h3.
    eapply lookup_weaken; [|apply extends_indexBatch, Hpost].
    by eapply lookup_weaken.
Qed.

End Batch.

(** ** Queries and the pagination fix-up *)

Lemma alter_lookup (f : object → object) (l : loc) (o : object) (h : heap) :
  h !! l = Some o → alter f l h = <[l := f o]> h.
Proof.
  intros Hl. rewrite <- (insert_id h l o Hl) at 1. apply alter_insert_eq.
Qed.

Lemma get_ref_run (l : loc) (k : jsstring) (h : heap) :
  get (VRef l) k h = (Ok (own_property h l k), h).
Proof. reflexivity. Qed.

Lemma own_property_lookup (l : loc) (o : object) (k : jsstring) (h : heap) :
  h !! l = Some o → own_property h l k = default VUndefined (props o !! k).
Proof. intros Hl. unfold own_property. by rewrite Hl. Qed.

Lemma set_ref_run (l : loc) (o : object) (k : jsstring) (x : any) (h : heap) :
  h !! l = Some o → k ≠ lit "__proto__" →
  set (VRef l) k x h
  = (Ok (), <[l := {| cls := cls o; props := <[k := x]> (props o) |}]> h).
Proof.
  intros Hl Hk. unfold set. rewrite (alter_lookup _ _ _ _ Hl).
  by rewrite bool_decide_false.
Qed.

Lemma fixupQueryResponse_run (l : loc) (o : object) (h : heap) :
  h !! l = Some o →
  fixupQueryResponse (VRef l) h = (Ok (), <[l := fixed_up o]> h).
Proof.
  intros Hl. unfold fixupQueryResponse.
  rewrite bind_run, get_ref_run, (own_property_lookup _ _ _ _ Hl).
  rewrite bind_run, (set_ref_run _ _ _ _ _ Hl) by (by vm_compute).
  rewrite bind_run, get_ref_run.
  erewrite own_property_lookup by apply lookup_insert_eq.
  erewrite set_ref_run; [|apply lookup_insert_eq|by vm_compute].
  cbn [props cls]. rewrite insert_insert_eq.
  by rewrite lookup_insert_ne by (by vm_compute).
Qed.

Section Query.
Context `{TR : !Transport any}.
Context (this : SimpleSearchClient).

(** C7.  When the reply's body is an object, [query] with [raw] set
    returns it with the store as the transport left it, so with nothing
    added and nothing renamed; [query] without [raw], and [queryNext]
    always, return the same object after setting its [nextLink] from
    [@odata.nextLink] and its [nextPageParameteres] from
    [@search.nextPageParameters], every other property keeping its
    value. *)
Theorem query_fixup (indexName query_string nextLink : jsstring)
    (h h1 : heap) (r : AxiosResponse any) (l : loc) (o : object) :
  data r = VRef l → h1 !! l = Some o →
  (Axios_get
     (makeUrl this (lit "indexes/" ++ indexName ++ lit "/docs") query_string)
     (makeRequestConfig this) h = (Ok r, h1) →
   query this indexName query_string true h = (Ok (VRef l), h1)
   ∧ query this indexName query_string false h
     = (Ok (VRef l), <[l := fixed_up o]> h1))
  ∧ (Axios_get nextLink (makeRequestConfig this) h = (Ok r, h1) →
     queryNext this nextLink h = (Ok (VRef l), <[l := fixed_up o]> h1))
  ∧ peek (<[l := fixed_up o]> h1) (VRef l) (lit "nextLink")
    = peek h1 (VRef l) (lit "@odata.nextLink")
  ∧ peek (<[l := fixed_up o]> h1) (VRef l) (lit "nextPageParameteres")
    = peek h1 (VRef l) (lit "@search.nextPageParameters")
  ∧ ∀ k, k ≠ lit "nextLink" → k ≠ lit "nextPageParameteres" →
         peek (<[l := fixed_up o]> h1) (VRef l) k = peek h1 (VRef l) k.
Proof.
  intros Hdata Hl. split; [|split; [|split; [|split]]].
  - intros Hget. unfold query, httpGet, httpGetUrl.
    rewrite !bind_run. unfold try_catch. rewrite Hget. split.
    + cbn [negb]. by rewrite Hdata.
    + cbn [negb]. rewrite bind_run, Hdata.
      by rewrite (fixupQueryResponse_run _ _ _ Hl).
  - intros Hget. unfold queryNext, httpGetUrl.
    rewrite !bind_run. unfold try_catch. rewrite Hget.
    rewrite bind_run, Hdata. by rewrite (fixupQueryResponse_run _ _ _ Hl).
  - cbn [peek]. unfold own_property.
    rewrite lookup_insert_eq, Hl. cbn [mbind option_bind fixed_up props].
    rewrite lookup_insert_ne by (by vm_compute).
    by rewrite lookup_insert_eq.
  - cbn [peek]. unfold own_property.
    rewrite lookup_insert_eq, Hl. cbn [mbind option_bind fixed_up props].
    by rewrite lookup_insert_eq.
  - intros k Hk1 Hk2. cbn [peek]. unfold own_property.
    rewrite lookup_insert_eq, Hl. cbn [mbind option_bind fixed_up props].
    by rewrite !lookup_insert_ne.
Qed.

End Query.

(** ** Document lookup *)

(** C10 (amended).  [lookup] percent-encodes the key with
    [encodeURIComponent].  For a well-formed key the encoding exists, is
    made of unreserved characters and [%XX] escapes only (so it holds no
    [/], [?], [&] or [#]), and [lookup] GETs
    [indexes/{indexName}/docs/{encodedKey}] and returns the response
    body as it came, the store being what the transport left.  A key of
    unreserved characters is its own encoding.  For a key that is not
    well formed (it has an unpaired surrogate) [encodeURIComponent]
    raises URIError and so does [lookup], before any request.  The
    four characters [/], [?], [&] and [#] are escaped as [%2F], [%3F],
    [%26] and [%23]. *)
Theorem lookup_encoded `{TR : !Transport any}
    (this : SimpleSearchClient) (indexName key : jsstring) :
  (∀ e, encodeURIComponent key = Some e →
     let path := lit "indexes/" ++ indexName ++ lit "/docs/" ++ e in
     Forall component_unit e
     ∧ (47 ∉ e) ∧ (63 ∉ e) ∧ (38 ∉ e) ∧ (35 ∉ e)
     ∧ lookup this indexName key
       = (r ← httpGet this path empty_string; mret (data r))
     ∧ ∀ h r h1,
         Axios_get (makeUrl this path empty_string) (makeRequestConfig this) h
           = (Ok r, h1) →
         lookup this indexName key h = (Ok (data r), h1))
  ∧ (well_formed key = true → is_Some (encodeURIComponent key))
  ∧ (well_formed key = false → lookup this indexName key = raise MalformedURI)
  ∧ (Forall (λ c, uriUnreserved c = true) key →
       encodeURIComponent key = Some key)
  ∧ encodeURIComponent (lit "/") = Some (lit "%2F")
  ∧ encodeURIComponent (lit "?") = Some (lit "%3F")
  ∧ encodeURIComponent (lit "&") = Some (lit "%26")
  ∧ encodeURIComponent (lit "#") = Some (lit "%23").
Proof.
  split; [|split; [|split; [|split; [|by vm_compute]]]].
  - intros e He path. pose proof (encodeURIComponent_units _ _ He) as Hu.
    split; [done|].
    do 4 (split; [by apply component_unit_excludes|]).
    split.
    + unfold lookup. rewrite He. reflexivity.
    + intros h r h1 Hget. unfold lookup. rewrite He.
      unfold mbind, M_bind, from_option, mret, M_ret, httpGet, httpGetUrl,
        try_catch. fold path. by rewrite Hget.
  - by intros ?%encodeURIComponent_defined.
  - intros Hk. unfold lookup.
    destruct (encodeURIComponent key) as [e|] eqn:He; [|reflexivity].
    assert (is_Some (encodeURIComponent key)) as Hs by (by eexists).
    apply encodeURIComponent_defined in Hs. congruence.
  - apply encodeURIComponent_unreserved.
Qed.

End Properties.

Lemma lookup_encoded_witness :
  encodeURIComponent (lit "a/b?c&d#e") = Some (lit "a%2Fb%3Fc%26d%23e")
  ∧ @lookup _ sample_engine (serving (ordinary ∅)) sample_client
      (lit "hotels") (lit "a/b?c&d#e") ∅
    = (Ok (VRef 1), {[ 1%positive := ordinary ∅ ]}).
Proof.
  assert (He : encodeURIComponent (lit "a/b?c&d#e")
               = Some (lit "a%2Fb%3Fc%26d%23e")) by (vm_compute; reflexivity).
  split; [exact He|].
  destruct (@lookup_encoded _ sample_engine (serving (ordinary ∅))
              sample_client (lit "hotels") (lit "a/b?c&d#e")) as [Henc _].
  destruct (Henc _ He) as (_ & _ & _ & _ & _ & _ & Hget).
  rewrite (Hget ∅ {| data := VRef 1; response_headers := ∅ |}
             {[ 1%positive := ordinary ∅ ]}); reflexivity.
Defined.

(** C10, as stated, fails: for the key made of one unpaired surrogate
    [encodeURIComponent] raises URIError, and [lookup] rejects with it
    although the transport would have served any request. *)
Lemma lookup_claim_counterexample :
  encodeURIComponent [55296] = None
  ∧ @lookup _ sample_engine (serving (ordinary ∅)) sample_client
      (lit "hotels") [55296] ∅
    = (Throw (VRef 1),
       {[ 1%positive := error_instance (lit "URIError") (lit "URI malformed") ]}).
Proof. split; reflexivity. Qed.

Lemma extractErrorMessage_priority_witness :
  @extractErrorMessage _ sample_engine (VRef 1)
     (failure_store (VStr (lit "net down")) (VStr (lit "boom")))
   = (Ok (VStr (lit "boom")),
      failure_store (VStr (lit "net down")) (VStr (lit "boom")))
  ∧ @extractErrorMessage _ sample_engine (VRef 1)
      {[ 1%positive := ordinary {[ lit "message" := VStr (lit "net down") ]} ]}
    = (Ok (VStr (lit "Error: net down")),
       {[ 1%positive := ordinary {[ lit "message" := VStr (lit "net down") ]} ]}).
Proof.
  split.
  - apply (@extractErrorMessage_priority _ sample_engine (VRef 1)
             (failure_store (VStr (lit "net down")) (VStr (lit "boom"))));
      [discriminate|discriminate|reflexivity].
  - apply (@extractErrorMessage_priority _ sample_engine (VRef 1)
             {[ 1%positive :=
                  ordinary {[ lit "message" := VStr (lit "net down") ]} ]});
      [discriminate|discriminate|reflexivity|reflexivity|discriminate].
Defined.

(** C3, as stated, fails: a failure whose nested message is the empty
    string does not get that message back but the fallback text. *)
Lemma extractErrorMessage_empty_message :
  let h := failure_store (VStr (lit "net down")) (VStr empty_string) in
  @nested_message sample_numbers h (VRef 1) = VStr empty_string
  ∧ @extractErrorMessage _ sample_engine (VRef 1) h
    = (Ok (VStr (lit "Error: net down")), h)
  ∧ @extractErrorMessage _ sample_engine (VRef 1) h ≠ (Ok (VStr empty_string), h).
Proof.
  intros h.
  assert (Hrun : @extractErrorMessage _ sample_engine (VRef 1) h
                 = (Ok (VStr (lit "Error: net down")), h)) by reflexivity.
  split; [reflexivity|]. split; [exact Hrun|].
  rewrite Hrun. by intros [=].
Qed.

Lemma extractErrorMessage_returns_witness :
  ∃ v, @extractErrorMessage _ sample_engine (VRef 1)
         (failure_store VUndefined VUndefined)
       = (Ok v, failure_store VUndefined VUndefined)
       ∧ ∃ s, v = VStr s.
Proof.
  destruct (@extractErrorMessage_returns _ sample_engine (VRef 1)
              (failure_store VUndefined VUndefined)) as [_ Hret].
  destruct Hret as (v & Hv & Hs); [discriminate|discriminate| |by exists v].
  intros _ l Hl.
  change (own_message_or_self (failure_store VUndefined VUndefined) (VRef 1))
    with (@VRef sample_numbers 1) in Hl.
  injection Hl as <-. by eexists.
Defined.

(** C4, as stated, fails: for an absent failure value the normalizer
    raises a TypeError, and a truthy nested message that is not a string
    is returned as it is. *)
Lemma extractErrorMessage_absent_failure :
  @extractErrorMessage _ sample_engine VUndefined ∅
  = (Throw (VRef 1),
     {[ 1%positive := error_instance (lit "TypeError")
                        (lit "Cannot read property response") ]})
  ∧ @extractErrorMessage _ sample_engine VNull ∅
    = (Throw (VRef 1),
       {[ 1%positive := error_instance (lit "TypeError")
                          (lit "Cannot read property response") ]})
  ∧ @extractErrorMessage _ sample_engine (VRef 1)
      (failure_store (VStr (lit "net down")) (@VNum sample_numbers 42%Z))
    = (Ok (@VNum sample_numbers 42%Z),
       failure_store (VStr (lit "net down")) (@VNum sample_numbers 42%Z)).
Proof. split; [reflexivity|]. split; reflexivity. Qed.

Lemma indexBatch_entry_count_witness :
  @indexBatch _ sample_engine (replying (batch_reply [])) sample_client
    (lit "hotels") VNull ∅
  = Error_thrown (lit
      "Unexpected response from service while attempting to process document")
      ∅
  ∧ @indexBatch _ sample_engine
      (replying (batch_reply [sample_entry true []; sample_entry false []]))
      sample_client (lit "hotels") VNull ∅
    = Error_thrown (lit
        "Unexpected response from service while attempting to process document")
        ∅.
Proof.
  split.
  - destruct (@indexBatch_entry_count _ sample_engine
                (replying (batch_reply [])) sample_client (lit "hotels"))
      as [Hcount _].
    apply (Hcount VNull ∅ (batch_reply []) ∅); [reflexivity|discriminate].
  - destruct (@indexBatch_entry_count _ sample_engine
                (replying (batch_reply
                             [sample_entry true []; sample_entry false []]))
                sample_client (lit "hotels")) as [Hcount _].
    apply (Hcount VNull ∅
             (batch_reply [sample_entry true []; sample_entry false []]) ∅);
      [reflexivity|discriminate].
Defined.

Lemma indexBatch_item_rejected_witness :
  @indexBatch _ sample_engine
    (replying (batch_reply [sample_entry false (lit "bad key")]))
    sample_client (lit "hotels") VNull ∅
  = Error_thrown (lit "Failed to process document: bad key") ∅.
Proof.
  apply (@indexBatch_item_rejected _ sample_engine
           (replying (batch_reply [sample_entry false (lit "bad key")]))
           sample_client (lit "hotels") VNull ∅ ∅
           (batch_reply [sample_entry false (lit "bad key")])
           (sample_entry false (lit "bad key")));
    reflexivity.
Defined.

(** [uploadDocument(idx, {id: "1", title: "x"}, true)] leaves the body
    [{ value: [ { id: "1", title: "x", "@search.action": "mergeOrUpload" } ] }]
    at location 4, its array at 3 and the stamped copy at 2. *)
Lemma uploadDocument_batch_witness :
  @uploadDocument _ sample_engine
    (replying (batch_reply [sample_entry true []]))
    sample_client (lit "hotels") (VRef 1) true document_store
  = (Ok (),
     <[4%positive := ordinary {[ lit "value" := VRef 3 ]}]>
       (<[3%positive := array [VRef 2]]>
          (<[2%positive :=
               ordinary (<[lit "@search.action" := VStr (lit "mergeOrUpload")]>
                           (<[lit "id" := VStr (lit "1")]>
                              {[ lit "title" := VStr (lit "x") ]}))]>
             document_store))).
Proof.
  destruct (@uploadDocument_batch _ sample_engine
              (replying (batch_reply [sample_entry true []]))
              sample_client (lit "hotels") 1%positive
              (ordinary (<[lit "id" := VStr (lit "1")]>
                           {[ lit "title" := VStr (lit "x") ]}))
              true document_store eq_refl eq_refl)
    as (_ & _ & _ & _ & Hok).
  exact (Hok (batch_reply [sample_entry true []]) _ (sample_entry true [])
           eq_refl eq_refl eq_refl).
Defined.

Lemma uploadDocument_frame_witness :
  (@uploadDocument _ sample_engine
     (replying (batch_reply [sample_entry false (lit "bad key")]))
     sample_client (lit "hotels") (VRef 1) true document_store).2
    !! 1%positive
  = Some (ordinary (<[lit "id" := VStr (lit "1")]>
                      {[ lit "title" := VStr (lit "x") ]})).
Proof.
  destruct (@uploadDocument_frame _ sample_engine
              (replying (batch_reply [sample_entry false (lit "bad key")]))
              sample_client (lit "hotels") (VRef 1) true document_store)
    as (_ & _ & _ & Hframe).
  apply Hframe; [|reflexivity].
  intros u d cfg h. reflexivity.
Defined.

Lemma query_fixup_witness :
  let body := ordinary {[ lit "@odata.nextLink" := VStr (lit "https://next") ]} in
  @query _ sample_engine (serving body) sample_client
    (lit "hotels") (lit "search=*") false ∅
  = (Ok (VRef 1), {[ 1%positive := fixed_up body ]})
  ∧ @query _ sample_engine (serving body) sample_client
      (lit "hotels") (lit "search=*") true ∅
    = (Ok (VRef 1), {[ 1%positive := body ]})
  ∧ @queryNext _ sample_engine (serving body) sample_client
      (lit "https://next") ∅
    = (Ok (VRef 1), {[ 1%positive := fixed_up body ]}).
Proof.
  intros body.
  destruct (@query_fixup _ sample_engine (serving body) sample_client
              (lit "hotels") (lit "search=*") (lit "https://next")
              ∅ {[ 1%positive := body ]}
              {| data := VRef 1; response_headers := ∅ |} 1%positive body)
    as (Hquery & Hnext & _); [reflexivity|apply lookup_singleton_eq|].
  destruct Hquery as [Hraw Hfixed]; [reflexivity|].
  split; [exact Hfixed|]. split; [exact Hraw|]. apply Hnext. reflexivity.
Defined.

(** [deleteDocument(idx, "id", "1")] submits
    [{ value: [ { "@search.action": "delete", id: "1" } ] }]: the record
    at location 1, its array at 2 and the body at 3. *)
Example deleteDocument_batch_example :
  @deleteDocument _ sample_engine
    (replying (batch_reply [sample_entry true []]))
    sample_client (lit "hotels") (lit "id") (VStr (lit "1")) ∅
  = (Ok (),
     <[3%positive := ordinary {[ lit "value" := VRef 2 ]}]>
       (<[2%positive := array [VRef 1]]>
          {[ 1%positive :=
               ordinary (<[lit "id" := VStr (lit "1")]>
                           {[ lit "@search.action" := VStr (lit "delete") ]}) ]})).
Proof. reflexivity. Qed.

(** * Further properties of the client *)

Section Coverage.
Context `{NU : Numbers} `{EN : !Engine}.

(** ** Transport failures *)

Lemma normalizes_to_run (h : heap) (error : any) (m : jsstring) :
  normalizes_to h error m →
  extractErrorMessage error h = (Ok (VStr m), h) ∧ m ≠ [].
Proof.
  intros (Hu & Hn & Hcase). rewrite extractErrorMessage_run by done.
  rewrite carries_message_nested.
  destruct Hcase as [[Hm Hne]|(Hf & own & Hown & Hne & ->)].
  - rewrite Hm. destruct m; [done|]. split; [reflexivity|done].
  - rewrite Hf. unfold own_message_or_self. rewrite Hown.
    destruct own; [done|]. split; [reflexivity|done].
Qed.

Lemma rethrow_normalized_run {A} (error : any) (m : jsstring) (h : heap) :
  extractErrorMessage error h = (Ok (VStr m), h) →
  (rethrow_normalized error : M A) h = Error_thrown m h.
Proof.
  intros Hm. unfold rethrow_normalized. rewrite bind_run, Hm. reflexivity.
Qed.

Lemma try_catch_throw {A} (m : M A) (handler : any → M A) (e : any)
    (h h1 : heap) :
  m h = (Throw e, h1) → try_catch m handler h = handler e h1.
Proof. intros Hm. unfold try_catch. by rewrite Hm. Qed.

Lemma try_catch_ok {A} (m : M A) (handler : any → M A) (a : A)
    (h h1 : heap) :
  m h = (Ok a, h1) → try_catch m handler h = (Ok a, h1).
Proof. intros Hm. unfold try_catch. by rewrite Hm. Qed.

Lemma httpPut_config {T} `{TR : !Transport T} (this : SimpleSearchClient)
    (path : jsstring) (data : any) (etag : option jsstring) :
  httpPut this path data etag
  = try_catch
      (Axios_put (makeUrl this path empty_string) data
         {| headers := put_headers this etag |})
      rethrow_normalized.
Proof. by destruct etag as [[|c e]|]. Qed.

(** X1.  When Axios rejects with a failure that normalizes to [m], each
    of the three wrappers throws [new Error(m)]: the message of the
    service's error body when there is one, and ["Error: "] with the
    failure's own message otherwise. *)
Theorem wrappers_normalize_failure {T} `{TR : !Transport T}
    (this : SimpleSearchClient) (e : any) (m : jsstring) (h h1 : heap) :
  normalizes_to h1 e m →
  (∀ url, Axios_get url (makeRequestConfig this) h = (Throw e, h1) →
          httpGetUrl this url h = Error_thrown m h1)
  ∧ (∀ path query,
       Axios_get (makeUrl this path query) (makeRequestConfig this) h
         = (Throw e, h1) →
       httpGet this path query h = Error_thrown m h1)
  ∧ (∀ path data,
       Axios_post (makeUrl this path empty_string) data
         (makeRequestConfig this) h = (Throw e, h1) →
       httpPost this path data h = Error_thrown m h1)
  ∧ (∀ path data etag,
       Axios_put (makeUrl this path empty_string) data
         {| headers := put_headers this etag |} h = (Throw e, h1) →
       httpPut this path data etag h = Error_thrown m h1).
Proof.
  intros [Hrun _]%normalizes_to_run.
  pose proof (rethrow_normalized_run (A:=AxiosResponse T) e m h1 Hrun) as Hre.
  split; [|split; [|split]].
  - intros url Hget. unfold httpGetUrl.
    by rewrite (try_catch_throw _ _ _ _ _ Hget).
  - intros path query Hget. unfold httpGet, httpGetUrl.
    by rewrite (try_catch_throw _ _ _ _ _ Hget).
  - intros path data Hpost. unfold httpPost.
    by rewrite (try_catch_throw _ _ _ _ _ Hpost).
  - intros path data etag Hput. rewrite httpPut_config.
    by rewrite (try_catch_throw _ _ _ _ _ Hput).
Qed.

(** The outcomes of the normalizer: a value, the store untouched, or an
    error of the language. *)
Lemma extractErrorMessage_outcomes (error : any) (h : heap) :
  (∃ v, extractErrorMessage error h = (Ok v, h) ∧ ToBoolean v = true)
  ∨ (∃ f, extractErrorMessage error h = raise f h).
Proof.
  assert (Hcases : (error = VUndefined ∨ error = VNull)
                   ∨ (error ≠ VUndefined ∧ error ≠ VNull)).
  { destruct error; (by left; auto) || by right. }
  destruct Hcases as [Hnull|[Hu Hn]].
  { right. eexists. by rewrite extractErrorMessage_nullish. }
  rewrite extractErrorMessage_run by done.
  destruct (carries_message h error) eqn:Hc.
  { left. eexists. split; [done|]. by rewrite <- carries_message_nested. }
  rewrite bind_run.
  destruct (own_message_or_self h error) as [| |b|n|s|l];
    try (left; eexists; split; reflexivity).
  unfold ToString. destruct (ObjectToString h l) as [s|].
  - left. eexists. split; reflexivity.
  - right. eexists. reflexivity.
Qed.

(** The handler of the wrappers always throws, and what it throws is an
    instance of an error class created for the occasion. *)
Lemma rethrow_normalized_fresh {A} (error : any) (h : heap) :
  ∃ o name, cls o = ClsError name
            ∧ (rethrow_normalized error : M A) h
              = (Throw (VRef (fresh_loc h)), <[fresh_loc h := o]> h).
Proof.
  unfold rethrow_normalized. rewrite bind_run.
  destruct (extractErrorMessage_outcomes error h) as [(v & -> & _)|[f ->]];
    [|do 2 eexists; split; [|reflexivity]; reflexivity].
  rewrite bind_run.
  destruct v as [| |b|n|s|l];
    try (do 2 eexists; split; [|reflexivity]; reflexivity).
  unfold new_Error, ToString. rewrite bind_run.
  destruct (ObjectToString h l) as [s|];
    do 2 eexists; (split; [|reflexivity]); reflexivity.
Qed.

(** X2.  A wrapper passes a resolved response through as it is.  For a
    rejection it never rethrows the value Axios rejected with: it throws
    an instance of an error class at a location that was free in the
    store the transport left, and changes nothing else in that store. *)
Theorem wrappers_throw_fresh_errors {T} `{TR : !Transport T}
    (this : SimpleSearchClient) (url path : jsstring) (data : any)
    (etag : option jsstring) (h : heap) :
  let passes (request wrapper : M (AxiosResponse T)) :=
    match request h with
    | (Ok response, h1) => wrapper h = (Ok response, h1)
    | (Throw e, h1) =>
        h1 !! fresh_loc h1 = None
        ∧ ∃ o name, cls o = ClsError name
                    ∧ wrapper h = (Throw (VRef (fresh_loc h1)),
                                   <[fresh_loc h1 := o]> h1)
    end in
  passes (Axios_get url (makeRequestConfig this)) (httpGetUrl this url)
  ∧ passes (Axios_post (makeUrl this path empty_string) data
              (makeRequestConfig this))
      (httpPost this path data)
  ∧ passes (Axios_put (makeUrl this path empty_string) data
              {| headers := put_headers this etag |})
      (httpPut this path data etag).
Proof.
  intros passes.
  assert (Hpasses : ∀ request,
            passes request (try_catch request rethrow_normalized)).
  { intros request. unfold passes, try_catch.
    destruct (request h) as [[response|e] h1]; [done|].
    split; [apply fresh_loc_fresh|apply rethrow_normalized_fresh]. }
  split; [apply Hpasses|]. split; [apply Hpasses|].
  rewrite httpPut_config. apply Hpasses.
Qed.

(** X3.  Whatever the normalizer returns is truthy, and it returns it in
    the store it was called in: a string it returns is never empty, so
    the Error a wrapper builds from it always has a message. *)
Theorem extractErrorMessage_truthy (error v : any) (h h' : heap) :
  extractErrorMessage error h = (Ok v, h') →
  ToBoolean v = true ∧ h' = h ∧ ∀ s, v = VStr s → s ≠ [].
Proof.
  intros Hrun.
  destruct (extractErrorMessage_outcomes error h) as [(v' & Hv & Ht)|[f Hf]].
  - rewrite Hv in Hrun. injection Hrun as -> ->.
    split; [done|]. split; [done|]. by intros s -> ->.
  - rewrite Hf in Hrun. discriminate Hrun.
Qed.

(** ** Batches *)

Section Batches.
Context `{TR : !Transport (CollectionResponse BatchResponseEntry)}.
Context (this : SimpleSearchClient) (indexName : jsstring).

(** X4.  When the POST is rejected with a failure that normalizes to
    [m], [indexBatch] normalizes twice: [httpPost] throws [new Error(m)],
    and the [catch] of [indexBatch] normalizes that Error again, so the
    Error that reaches the caller has the message
    ["Failed to process document: Error: "] followed by [m]. *)
Theorem indexBatch_transport_failure (batch e : any) (m : jsstring)
    (h h1 : heap) :
  Axios_post (docs_index_url this indexName) batch (makeRequestConfig this) h
    = (Throw e, h1) →
  normalizes_to h1 e m →
  indexBatch this indexName batch h
  = Error_thrown (lit "Failed to process document: Error: " ++ m)
      (<[fresh_loc h1 := error_instance (lit "Error") m]> h1).
Proof.
  intros Hpost Hnorm.
  destruct (normalizes_to_run _ _ _ Hnorm) as [Hrun Hne].
  set (h2 := <[fresh_loc h1 := error_instance (lit "Error") m]> h1).
  assert (Hinner : normalizes_to h2 (VRef (fresh_loc h1)) (lit "Error: " ++ m)).
  { split; [done|]. split; [done|]. right.
    assert (Hresponse : peek h2 (VRef (fresh_loc h1)) (lit "response")
                        = VUndefined).
    { cbn [peek]. unfold own_property, h2. rewrite lookup_insert_eq.
      cbn [mbind option_bind error_instance props].
      by rewrite lookup_singleton_ne by (by vm_compute). }
    split; [unfold nested_message; by rewrite Hresponse|].
    exists m. split; [|done].
    cbn [peek]. unfold own_property, h2. rewrite lookup_insert_eq.
    cbn [mbind option_bind error_instance props].
    by rewrite lookup_singleton_eq. }
  destruct (normalizes_to_run _ _ _ Hinner) as [Hrun2 _].
  unfold indexBatch. rewrite bind_run.
  erewrite try_catch_throw; cycle 1.
  { rewrite bind_run. unfold httpPost.
    change (makeUrl this (lit "indexes/" ++ indexName ++ lit "/docs/index")
              empty_string) with (docs_index_url this indexName).
    rewrite (try_catch_throw _ _ _ _ _ Hpost).
    rewrite (rethrow_normalized_run _ _ _ Hrun). reflexivity. }
  fold h2. rewrite bind_run, Hrun2. reflexivity.
Qed.

(** X5.  After a resolved POST, [indexBatch] succeeds exactly when the
    envelope holds one entry and that entry's status is true, and then
    the store is the one the transport left. *)
Theorem indexBatch_succeeds_iff (batch : any) (h h1 : heap)
    (r : AxiosResponse (CollectionResponse BatchResponseEntry)) :
  Axios_post (docs_index_url this indexName) batch (makeRequestConfig this) h
    = (Ok r, h1) →
  ((indexBatch this indexName batch h).1 = Ok ()
   ↔ ∃ entry, value (data r) = [entry] ∧ status entry = true)
  ∧ ((indexBatch this indexName batch h).1 = Ok () →
     indexBatch this indexName batch h = (Ok (), h1)).
Proof.
  intros Hpost. rewrite (indexBatch_run _ _ _ _ _ _ Hpost).
  destruct (value (data r)) as [|entry [|entry' entries]]; cbn [fst].
  - split; [split; [done|by intros (? & ? & ?)]|done].
  - destruct (status entry) eqn:Hs; cbn [fst].
    + split; [|done]. split; [by exists entry|done].
    + split; [|done]. split; [done|].
      intros (entry' & [= <-] & Hs'). congruence.
  - split; [split; [done|by intros (? & ? & ?)]|done].
Qed.

(** X6.  [deleteDocument] submits through [indexBatch] a new object
    whose [value] is a new one-element array holding a new record, and
    touches no object that existed.  For a key field name other than
    [__proto__] the record holds the key under that name; it holds
    [@search.action = "delete"] besides, unless the key field is named
    [@search.action] itself: then the key takes the place of the action
    and the record has that one property. *)
Theorem deleteDocument_batch (keyName : jsstring) (key : any) (h : heap) :
  keyName ≠ lit "__proto__" →
  let record : gmap jsstring any :=
    <[keyName := key]> {[ lit "@search.action" := VStr (lit "delete") ]} in
  let d := fresh_loc h in
  let h1 := <[d := ordinary record]> h in
  let a := fresh_loc h1 in
  let h2 := <[a := array [VRef d]]> h1 in
  let b := fresh_loc h2 in
  let h3 := <[b := ordinary {[ lit "value" := VRef a ]}]> h2 in
  deleteDocument this indexName keyName key h
    = indexBatch this indexName (VRef b) h3
  ∧ h ⊆ h3
  ∧ record !! keyName = Some key
  ∧ (keyName ≠ lit "@search.action" →
     record !! lit "@search.action" = Some (VStr (lit "delete"))
     ∧ dom record = {[ keyName; lit "@search.action" ]})
  ∧ (keyName = lit "@search.action" →
     record = {[ lit "@search.action" := key ]}).
Proof.
  intros Hproto record d h1 a h2 b h3.
  split.
  { rewrite deleteDocument_run. by rewrite bool_decide_false. }
  split.
  { etrans; [apply insert_subseteq, fresh_loc_fresh|].
    etrans; apply insert_subseteq, fresh_loc_fresh. }
  unfold record. split; [by rewrite lookup_insert_eq|]. split.
  - intros Hk. split.
    + rewrite lookup_insert_ne by done. by rewrite lookup_singleton_eq.
    + by rewrite dom_insert_L, dom_singleton_L.
  - intros ->. by rewrite insert_singleton_eq.
Qed.


End Batches.

(** ** Listings, resources and queries *)

Lemma makeUrl_select (this : SimpleSearchClient) (path fields : jsstring) :
  makeUrl this path (lit "$select=" ++ fields)
  = lit "https://" ++ serviceName this ++ lit "."
      ++ or_default (cloudSuffix this) (lit "search.windows.net")
      ++ lit "/" ++ path ++ lit "?api-version=2019-05-06&$select=" ++ fields.
Proof. rewrite makeUrl_options. reflexivity. Qed.

Lemma httpGet_ok {T} `{TR : !Transport T} (this : SimpleSearchClient)
    (path query : jsstring) (r : AxiosResponse T) (h h1 : heap) :
  Axios_get (makeUrl this path query) (makeRequestConfig this) h = (Ok r, h1) →
  httpGet this path query h = (Ok r, h1).
Proof. intros Hget. unfold httpGet, httpGetUrl. by apply try_catch_ok. Qed.

(** X8.  The three listings GET their collection with a [$select]
    projection after the version — [indexes] with [name,fields],
    [datasources] and [indexers] with [name] — and give back what the
    envelope holds, in the envelope's order: the indexes themselves, and
    for the other two the name of each item, one per item. *)
Theorem listings_follow_envelope
    `{TI : !Transport (CollectionResponse Index.t)}
    `{TN : !Transport (CollectionResponse NamedItem.t)}
    (this : SimpleSearchClient) (h h1 : heap) :
  let url collection fields :=
    lit "https://" ++ serviceName this ++ lit "."
      ++ or_default (cloudSuffix this) (lit "search.windows.net")
      ++ lit "/" ++ collection ++ lit "?api-version=2019-05-06&$select="
      ++ fields in
  let names_of (r : AxiosResponse (CollectionResponse NamedItem.t))
               (out : result (list jsstring) * heap) :=
    ∃ names, out = (Ok names, h1)
             ∧ length names = length (value (data r))
             ∧ ∀ i item, value (data r) !! i = Some item →
                         names !! i = Some (NamedItem.name item) in
  (∀ r, Axios_get (url (lit "indexes") (lit "name,fields"))
          (makeRequestConfig this) h = (Ok r, h1) →
        listIndexes this h = (Ok (value (data r)), h1))
  ∧ (∀ r, Axios_get (url (lit "datasources") (lit "name"))
            (makeRequestConfig this) h = (Ok r, h1) →
          names_of r (listDataSources this h))
  ∧ (∀ r, Axios_get (url (lit "indexers") (lit "name"))
            (makeRequestConfig this) h = (Ok r, h1) →
          names_of r (listIndexers this h)).
Proof.
  intros url names_of.
  assert (Hnames : ∀ r : AxiosResponse (CollectionResponse NamedItem.t),
            names_of r (Ok (NamedItem.name <$> value (data r)), h1)).
  { intros r. eexists. split; [done|]. split; [by rewrite length_fmap|].
    intros i item Hi. by rewrite list_lookup_fmap, Hi. }
  split; [|split]; intros r Hget; unfold url in Hget;
    rewrite <- makeUrl_select in Hget.
  - change (lit "$select=" ++ lit "name,fields")
      with (lit "$select=name,fields") in Hget.
    unfold listIndexes. rewrite bind_run.
    by rewrite (httpGet_ok _ _ _ _ _ _ Hget).
  - change (lit "$select=" ++ lit "name") with (lit "$select=name") in Hget.
    unfold listDataSources. rewrite bind_run.
    rewrite (httpGet_ok _ _ _ _ _ _ Hget). apply Hnames.
  - change (lit "$select=" ++ lit "name") with (lit "$select=name") in Hget.
    unfold listIndexers. rewrite bind_run.
    rewrite (httpGet_ok _ _ _ _ _ _ Hget). apply Hnames.
Qed.

Section Resources.
Context `{TR : !Transport any}.
Context (this : SimpleSearchClient).

(** X9.  [getResource] GETs [{resource}/{name}] and pairs the body with
    the [etag] response header, absent when the response has none.
    Handing that token back to [updateResource] PUTs to the same URL
    with [if-match] set to the token when it is a non-empty string; when
    the response had no [etag] header, or an empty one, the update goes
    out without [if-match], so unconditioned. *)
Theorem getResource_updateResource (resource name : jsstring)
    (r : AxiosResponse any) (h h1 : heap) :
  let url := makeUrl this (resource ++ lit "/" ++ name) empty_string in
  Axios_get url (makeRequestConfig this) h = (Ok r, h1) →
  getResource this resource name h
    = (Ok {| content := data r; etag := response_headers r !! lit "etag" |},
       h1)
  ∧ ∀ content',
      updateResource this resource name content'
        (response_headers r !! lit "etag")
      = try_catch
          (Axios_put url content'
             {| headers :=
                  match response_headers r !! lit "etag" with
                  | Some (c :: e) =>
                      <[lit "if-match" := c :: e]>
                        (headers (makeRequestConfig this))
                  | _ => headers (makeRequestConfig this)
                  end |})
          rethrow_normalized.
Proof.
  intros url Hget. unfold url in *. split.
  - unfold getResource. rewrite bind_run.
    by rewrite (httpGet_ok _ _ _ _ _ _ Hget).
  - intros content'. unfold updateResource. rewrite httpPut_config.
    unfold put_headers. by destruct (response_headers r !! lit "etag") as [[|c e]|].
Qed.

(** X10.  When the reply's body is [null] or [undefined], [query] with
    [raw] set returns it, while [query] without [raw] and [queryNext]
    raise the TypeError of reading [@odata.nextLink] from it: an error
    of the language, not a normalized transport Error. *)
Theorem query_absent_body (indexName query_string nextLink : jsstring)
    (r : AxiosResponse any) (h h1 : heap) :
  data r = VUndefined ∨ data r = VNull →
  (Axios_get
     (makeUrl this (lit "indexes/" ++ indexName ++ lit "/docs") query_string)
     (makeRequestConfig this) h = (Ok r, h1) →
   query this indexName query_string true h = (Ok (data r), h1)
   ∧ query this indexName query_string false h
     = raise (ReadOfNullish (data r) (lit "@odata.nextLink")) h1)
  ∧ (Axios_get nextLink (makeRequestConfig this) h = (Ok r, h1) →
     queryNext this nextLink h
     = raise (ReadOfNullish (data r) (lit "@odata.nextLink")) h1).
Proof.
  intros Hdata. split.
  - intros Hget. unfold query. rewrite !bind_run.
    rewrite (httpGet_ok _ _ _ _ _ _ Hget). cbn [negb].
    split; [reflexivity|]. rewrite bind_run.
    by destruct Hdata as [-> | ->].
  - intros Hget. unfold queryNext, httpGetUrl. rewrite bind_run.
    rewrite (try_catch_ok _ _ _ _ _ Hget). rewrite bind_run.
    by destruct Hdata as [-> | ->].
Qed.

(** The fix-up is two alterations of the one object it is given. *)
Lemma fixupQueryResponse_alters (l : loc) (h : heap) :
  ∃ f g, fixupQueryResponse (VRef l) h = (Ok (), alter g l (alter f l h)).
Proof.
  unfold fixupQueryResponse. rewrite bind_run, get_ref_run.
  rewrite bind_run. unfold set at 1. rewrite bind_run, get_ref_run.
  unfold set. by do 2 eexists.
Qed.

(** X11.  The fix-up writes to the response body and to nothing else:
    after [query] without [raw], and after [queryNext], every object
    other than the body is as the transport left it, and no object has
    been created. *)
Theorem query_writes_body_only (indexName query_string nextLink : jsstring)
    (r : AxiosResponse any) (l : loc) (h h1 : heap) :
  data r = VRef l →
  let untouched (out : result any * heap) :=
    out.1 = Ok (VRef l)
    ∧ dom out.2 = dom h1
    ∧ ∀ l', l' ≠ l → out.2 !! l' = h1 !! l' in
  (Axios_get
     (makeUrl this (lit "indexes/" ++ indexName ++ lit "/docs") query_string)
     (makeRequestConfig this) h = (Ok r, h1) →
   untouched (query this indexName query_string false h))
  ∧ (Axios_get nextLink (makeRequestConfig this) h = (Ok r, h1) →
     untouched (queryNext this nextLink h)).
Proof.
  intros Hdata untouched.
  destruct (fixupQueryResponse_alters l h1) as (f & g & Hfix).
  assert (Hout : untouched (Ok (VRef l), alter g l (alter f l h1))).
  { unfold untouched. cbn [fst snd].
    split; [done|]. split; [by rewrite !dom_alter_L|].
    intros l' Hl'. by rewrite !lookup_alter_ne. }
  split; intros Hget.
  - unfold query. rewrite !bind_run.
    rewrite (httpGet_ok _ _ _ _ _ _ Hget). cbn [negb].
    by rewrite bind_run, Hdata, Hfix.
  - unfold queryNext, httpGetUrl. rewrite bind_run.
    rewrite (try_catch_ok _ _ _ _ _ Hget).
    by rewrite bind_run, Hdata, Hfix.
Qed.

End Resources.

(** ** What a name can do to the URL *)

Lemma before_elem (sep : N) (s t : jsstring) :
  sep ∈ s → before sep (s ++ t) = before sep s.
Proof.
  induction s as [|c s IH]; intros Hs; [by apply elem_of_nil in Hs|].
  simpl. destruct (N.eqb_spec c sep) as [->|Hc]; [done|].
  apply elem_of_cons in Hs as [->|Hs]; [done|]. by rewrite IH.
Qed.

Lemma before_subset (sep c : N) (s : jsstring) : c ∉ s → c ∉ before sep s.
Proof.
  induction s as [|d s IH]; intros Hs; [done|].
  apply not_elem_of_cons in Hs as [Hd Hs]. simpl.
  destruct (d =? sep); [apply not_elem_of_nil|].
  apply not_elem_of_cons. auto.
Qed.

Lemma after_absent (sep : N) (s : jsstring) : sep ∉ s → after sep s = None.
Proof.
  induction s as [|c s IH]; intros Hs; [done|].
  apply not_elem_of_cons in Hs as [Hc Hs]. simpl.
  destruct (N.eqb_spec c sep); [congruence|]. by apply IH.
Qed.

(** X12.  The key [lookup] embeds cannot reach the query string: the
    encoded key is ASCII without [?] and [#], so as long as service
    name, suffix and index name hold neither, the URL [lookup] requests
    has the version as its one and only parameter. *)
Theorem lookup_key_cannot_inject `{TR : !Transport any}
    (this : SimpleSearchClient) (indexName key e : jsstring) :
  let host := serviceName this
                ++ or_default (cloudSuffix this) (lit "search.windows.net")
                ++ indexName in
  let url := makeUrl this (lit "indexes/" ++ indexName ++ lit "/docs/" ++ e)
               empty_string in
  encodeURIComponent key = Some e →
  63 ∉ host → 35 ∉ host →
  lookup this indexName key = (r ← httpGetUrl this url; mret (data r))
  ∧ url_parameters url = [lit "api-version=2019-05-06"]
  ∧ Forall (λ c, c < 128) e.
Proof.
  intros host url He Hq Hh. unfold host in *.
  pose proof (encodeURIComponent_units _ _ He) as Hu.
  rewrite !not_elem_of_app in Hq, Hh.
  destruct Hq as (Hq1 & Hq2 & Hq3), Hh as (Hh1 & Hh2 & Hh3).
  split; [|split].
  - unfold lookup. rewrite He. reflexivity.
  - unfold url. rewrite makeUrl_parameters; [done|..].
    + rewrite !not_elem_of_app. repeat split; try done; try by_evaluation.
      by apply component_unit_excludes.
    + rewrite !not_elem_of_app. repeat split; try done; try by_evaluation.
      by apply component_unit_excludes.
  - eapply Forall_impl; [exact Hu|].
    intros c [Hc%uriUnreserved_ascii| ->]; [done|lia].
Qed.

(** X13.  Names go into the path as they are.  When service name,
    suffix and path hold a [#] and no [?], everything from the [#] on is
    a fragment: the built URL has no parameter at all, not even the
    version, whatever the query fragment is. *)
Theorem makeUrl_fragment_mark (this : SimpleSearchClient)
    (path options : jsstring) :
  let host := serviceName this
                ++ or_default (cloudSuffix this) (lit "search.windows.net")
                ++ path in
  63 ∉ host → 35 ∈ host →
  url_parameters (makeUrl this path options) = [].
Proof.
  intros host Hq Hh. unfold host in *.
  rewrite !not_elem_of_app in Hq. destruct Hq as (Hq1 & Hq2 & Hq3).
  rewrite makeUrl_options. unfold url_parameters.
  set (suffix := or_default (cloudSuffix this) (lit "search.windows.net")) in *.
  set (tail := lit "?api-version=" ++ API_VERSION ++ _).
  set (head := lit "https://" ++ serviceName this ++ lit "." ++ suffix
                 ++ lit "/" ++ path).
  assert (Hurl : lit "https://" ++ serviceName this ++ lit "." ++ suffix
                   ++ lit "/" ++ path ++ tail = head ++ tail).
  { unfold head. by rewrite <- !app_assoc. }
  rewrite Hurl.
  assert (Hmark : 35 ∈ head).
  { unfold head. rewrite !elem_of_app in Hh. rewrite !elem_of_app. tauto. }
  assert (Hquery : 63 ∉ head).
  { unfold head. rewrite !not_elem_of_app.
    repeat split; try done; by_evaluation. }
  rewrite before_elem by done.
  by rewrite after_absent by (by apply before_subset).
Qed.

(** ** What the calls leave in the store *)

Lemma extends_wrapper {T} (request : M (AxiosResponse T)) :
  extends request → extends (try_catch request rethrow_normalized).
Proof.
  intros Hr. apply extends_try_catch; [done|].
  intros e. apply extends_rethrow_normalized.
Qed.

Lemma extends_httpGet {T} `{TR : !Transport T} (this : SimpleSearchClient)
    (path query : jsstring) :
  transport_extends (T:=T) → extends (httpGet this path query).
Proof. intros (Hget & _ & _). apply extends_wrapper, Hget. Qed.

Section Frames.
Context `{TA : !Transport any}.
Context `{TB : !Transport (CollectionResponse BatchResponseEntry)}.
Context `{TI : !Transport (CollectionResponse Index.t)}.
Context `{TN : !Transport (CollectionResponse NamedItem.t)}.
Context (this : SimpleSearchClient).

(** X14.  As long as the transport only adds objects to the store, so
    do the listings, [getResource], [updateResource], [lookup], [query]
    with [raw] set and [deleteDocument]: whether they return or throw,
    every object that existed before the call is unchanged after it. *)
Theorem calls_only_add :
  transport_extends (T:=any) →
  transport_extends (T:=CollectionResponse BatchResponseEntry) →
  transport_extends (T:=CollectionResponse Index.t) →
  transport_extends (T:=CollectionResponse NamedItem.t) →
  extends (listIndexes this)
  ∧ extends (listDataSources this)
  ∧ extends (listIndexers this)
  ∧ (∀ resource name, extends (getResource this resource name))
  ∧ (∀ resource name content etag,
       extends (updateResource this resource name content etag))
  ∧ (∀ indexName key, extends (lookup this indexName key))
  ∧ (∀ indexName query_string, extends (query this indexName query_string true))
  ∧ (∀ indexName keyName key,
       extends (deleteDocument this indexName keyName key)).
Proof.
  intros HA HB HI HN.
  split; [|split; [|split; [|split; [|split; [|split; [|split]]]]]].
  - apply extends_bind; [by apply extends_httpGet|intros; apply extends_ret].
  - apply extends_bind; [by apply extends_httpGet|intros; apply extends_ret].
  - apply extends_bind; [by apply extends_httpGet|intros; apply extends_ret].
  - intros resource name.
    apply extends_bind; [by apply extends_httpGet|intros; apply extends_ret].
  - intros resource name content etag. unfold updateResource.
    rewrite httpPut_config. apply extends_wrapper. apply HA.
  - intros indexName key. unfold lookup. apply extends_bind.
    + destruct (encodeURIComponent key);
        [apply extends_ret|apply extends_raise].
    + intros e.
      apply extends_bind; [by apply extends_httpGet|intros; apply extends_ret].
  - intros indexName query_string. unfold query.
    apply extends_bind; [by apply extends_httpGet|].
    intros r. apply extends_bind; [apply extends_ret|intros; apply extends_ret].
  - intros indexName keyName key h. rewrite deleteDocument_run.
    etrans; [|apply extends_indexBatch, HB].
    etrans; [apply insert_subseteq, fresh_loc_fresh|].
    etrans; apply insert_subseteq, fresh_loc_fresh.
Qed.

End Frames.

(** ** Request headers *)

(** X15.  Every PUT carries the client's [api-key] and [User-Agent],
    whatever the token: a non-empty token is sent as [if-match] as it
    is, beside them, and otherwise the two are the only headers. *)
Theorem httpPut_headers {T} `{TR : !Transport T} (this : SimpleSearchClient)
    (path : jsstring) (data : any) (etag : option jsstring) :
  ∃ sent : gmap jsstring jsstring,
    httpPut this path data etag
    = try_catch
        (Axios_put (makeUrl this path empty_string) data {| headers := sent |})
        rethrow_normalized
    ∧ sent !! lit "api-key" = Some (apikey this)
    ∧ sent !! lit "User-Agent" = Some (userAgent this)
    ∧ sent !! lit "if-match"
      = match etag with Some (c :: e) => Some (c :: e) | _ => None end
    ∧ dom sent
      = match etag with
        | Some (_ :: _) =>
            {[ lit "if-match"; lit "User-Agent"; lit "api-key" ]}
        | _ => {[ lit "User-Agent"; lit "api-key" ]}
        end.
Proof.
  exists (put_headers this etag). split; [apply httpPut_config|].
  assert (Hkey : headers (makeRequestConfig this) !! lit "api-key"
                 = Some (apikey this)).
  { unfold makeRequestConfig, headers.
    rewrite lookup_insert_ne by (by vm_compute).
    apply lookup_singleton_eq. }
  assert (Hagent : headers (makeRequestConfig this) !! lit "User-Agent"
                   = Some (userAgent this)).
  { unfold makeRequestConfig, headers. apply lookup_insert_eq. }
  assert (Hnone : headers (makeRequestConfig this) !! lit "if-match" = None).
  { unfold makeRequestConfig, headers.
    rewrite lookup_insert_ne by (by vm_compute).
    apply lookup_singleton_ne. by vm_compute. }
  assert (Hdom : dom (headers (makeRequestConfig this))
                 = {[ lit "User-Agent"; lit "api-key" ]}).
  { unfold makeRequestConfig, headers.
    by rewrite dom_insert_L, dom_singleton_L. }
  unfold put_headers. by destruct etag as [[|c e]|].
Qed.

(** ** The module loader *)

(** X16.  [getCoreNodeModule] never throws.  It returns the module of
    [{appRoot}/node_modules.asar/{moduleName}] when that loads; when
    that throws, the module of [{appRoot}/node_modules/{moduleName}]
    when this one loads; and [undefined] when both throw. *)
Theorem getCoreNodeModule_never_throws `{HO : !Host} (moduleName : jsstring)
    (h : heap) :
  let packed := appRoot ++ lit "/node_modules.asar/" ++ moduleName in
  let plain := appRoot ++ lit "/node_modules/" ++ moduleName in
  (∃ v h', getCoreNodeModule moduleName h = (Ok v, h'))
  ∧ (∀ m h1, require packed h = (Ok m, h1) →
             getCoreNodeModule moduleName h = (Ok m, h1))
  ∧ (∀ e h1 m h2, require packed h = (Throw e, h1) →
                  require plain h1 = (Ok m, h2) →
                  getCoreNodeModule moduleName h = (Ok m, h2))
  ∧ (∀ e h1 e' h2, require packed h = (Throw e, h1) →
                   require plain h1 = (Throw e', h2) →
                   getCoreNodeModule moduleName h = (Ok VUndefined, h2)).
Proof.
  intros packed plain. unfold getCoreNodeModule, try_catch.
  fold packed plain. split; [|split; [|split]].
  - destruct (require packed h) as [[m|e] h1]; [by eauto|].
    destruct (require plain h1) as [[m|e'] h2]; by eauto.
  - by intros m h1 ->.
  - by intros e h1 m h2 -> ->.
  - by intros e h1 e' h2 -> ->.
Qed.

End Coverage.

(** ** The further properties at work *)

Lemma boom_normalizes :
  @normalizes_to sample_numbers
    (failure_store (VStr (lit "net down")) (VStr (lit "boom"))) (VRef 1)
    (lit "boom").
Proof.
  split; [discriminate|]. split; [discriminate|].
  left. split; [reflexivity|discriminate].
Qed.

Lemma wrappers_normalize_failure_witness :
  @httpGetUrl _ sample_engine (@any sample_numbers) (rejecting (VRef 1)) sample_client
    (lit "https://next")
    (failure_store (VStr (lit "net down")) (VStr (lit "boom")))
  = Error_thrown (lit "boom")
      (failure_store (VStr (lit "net down")) (VStr (lit "boom"))).
Proof.
  destruct (@wrappers_normalize_failure _ sample_engine (@any sample_numbers)
              (rejecting (VRef 1)) sample_client (VRef 1) (lit "boom")
              (failure_store (VStr (lit "net down")) (VStr (lit "boom")))
              (failure_store (VStr (lit "net down")) (VStr (lit "boom")))
              boom_normalizes) as [Hget _].
  apply Hget. reflexivity.
Defined.

Lemma extractErrorMessage_truthy_witness :
  ToBoolean (@VStr sample_numbers (lit "boom")) = true
  ∧ lit "boom" ≠ [].
Proof.
  destruct (@extractErrorMessage_truthy _ sample_engine (VRef 1)
              (VStr (lit "boom"))
              (failure_store (VStr (lit "net down")) (VStr (lit "boom")))
              (failure_store (VStr (lit "net down")) (VStr (lit "boom")))
              eq_refl) as (Ht & _ & Hs).
  split; [exact Ht|]. by apply Hs.
Defined.

Lemma indexBatch_transport_failure_witness :
  @indexBatch _ sample_engine (rejecting (VRef 1)) sample_client
    (lit "hotels") VNull
    (failure_store (VStr (lit "net down")) (VStr (lit "boom")))
  = Error_thrown (lit "Failed to process document: Error: boom")
      (<[5%positive := error_instance (lit "Error") (lit "boom")]>
         (failure_store (VStr (lit "net down")) (VStr (lit "boom")))).
Proof.
  apply (@indexBatch_transport_failure _ sample_engine (rejecting (VRef 1))
           sample_client (lit "hotels") VNull (VRef 1) (lit "boom")
           (failure_store (VStr (lit "net down")) (VStr (lit "boom")))
           (failure_store (VStr (lit "net down")) (VStr (lit "boom"))));
    [reflexivity|exact boom_normalizes].
Defined.

Lemma indexBatch_succeeds_iff_witness :
  (@indexBatch _ sample_engine
     (replying (batch_reply [sample_entry true []]))
     sample_client (lit "hotels") VNull ∅).1 = Ok ().
Proof.
  destruct (@indexBatch_succeeds_iff _ sample_engine
              (replying (batch_reply [sample_entry true []]))
              sample_client (lit "hotels") VNull ∅ ∅
              (batch_reply [sample_entry true []]) eq_refl) as [Hiff _].
  apply Hiff. by exists (sample_entry true []).
Defined.

Lemma deleteDocument_batch_witness :
  (<[lit "id" := @VStr sample_numbers (lit "1")]>
     {[ lit "@search.action" := VStr (lit "delete") ]}
   : gmap jsstring (@any sample_numbers))
    !! lit "@search.action"
  = Some (VStr (lit "delete")).
Proof.
  destruct (@deleteDocument_batch _ sample_engine
              (replying (batch_reply [sample_entry true []]))
              sample_client (lit "hotels") (lit "id") (VStr (lit "1")) ∅)
    as (_ & _ & _ & Haction & _); [discriminate|].
  apply Haction. discriminate.
Defined.


Lemma listings_follow_envelope_witness :
  ∃ names,
    @listDataSources _ sample_engine
      (replying {| data := {| value := [ {| NamedItem.name := lit "blobs" |};
                                         {| NamedItem.name := lit "sql" |} ] |};
                   response_headers := ∅ |})
      sample_client ∅
    = (Ok names, ∅)
    ∧ length names = 2%nat.
Proof.
  destruct (@listings_follow_envelope _ sample_engine
              (replying {| data := {| value := [] |}; response_headers := ∅ |})
              (replying {| data := {| value := [ {| NamedItem.name := lit "blobs" |};
                                                 {| NamedItem.name := lit "sql" |} ] |};
                           response_headers := ∅ |})
              sample_client ∅ ∅) as (_ & Hsources & _).
  destruct (Hsources _ eq_refl) as (names & Hrun & Hlen & _).
  by exists names.
Defined.

Lemma getResource_updateResource_witness :
  @getResource _ sample_engine
    (replying {| data := VNull;
                 response_headers := {[ lit "etag" := lit "W/1" ]} |})
    sample_client (lit "indexes") (lit "hotels") ∅
  = (Ok {| content := VNull; etag := Some (lit "W/1") |}, ∅).
Proof.
  destruct (@getResource_updateResource _ sample_engine
              (replying {| data := VNull;
                           response_headers := {[ lit "etag" := lit "W/1" ]} |})
              sample_client (lit "indexes") (lit "hotels")
              {| data := VNull;
                 response_headers := {[ lit "etag" := lit "W/1" ]} |}
              ∅ ∅ eq_refl) as [Hget _].
  exact Hget.
Defined.

Lemma query_absent_body_witness :
  @query _ sample_engine
    (replying {| data := VNull; response_headers := ∅ |})
    sample_client (lit "hotels") (lit "search=*") false ∅
  = (Throw (VRef 1),
     {[ 1%positive :=
          error_instance (lit "TypeError")
            (lit "Cannot read property @odata.nextLink") ]}).
Proof.
  destruct (@query_absent_body _ sample_engine
              (replying {| data := VNull; response_headers := ∅ |})
              sample_client (lit "hotels") (lit "search=*") (lit "https://next")
              {| data := VNull; response_headers := ∅ |} ∅ ∅
              (or_intror eq_refl)) as [Hquery _].
  destruct (Hquery eq_refl) as [_ Hfixed]. rewrite Hfixed. reflexivity.
Defined.

Lemma query_writes_body_only_witness :
  (@queryNext _ sample_engine (serving (ordinary ∅)) sample_client
     (lit "https://next") document_store).2 !! 1%positive
  = document_store !! 1%positive.
Proof.
  destruct (@query_writes_body_only _ sample_engine (serving (ordinary ∅))
              sample_client (lit "hotels") (lit "search=*")
              (lit "https://next")
              {| data := VRef 2; response_headers := ∅ |} 2%positive
              document_store
              (<[2%positive := ordinary ∅]> document_store) eq_refl)
    as [_ Hnext].
  destruct (Hnext eq_refl) as (_ & _ & Hother).
  rewrite Hother by discriminate. by rewrite lookup_insert_ne.
Defined.

Lemma lookup_key_cannot_inject_witness :
  url_parameters
    (makeUrl sample_client
       (lit "indexes/" ++ lit "hotels" ++ lit "/docs/" ++ lit "a%3Fb%23c")
       empty_string)
  = [lit "api-version=2019-05-06"].
Proof.
  destruct (@lookup_key_cannot_inject _ sample_engine (serving (ordinary ∅))
              sample_client (lit "hotels") (lit "a?b#c") (lit "a%3Fb%23c"))
    as (_ & Hparameters & _).
  - vm_compute. reflexivity.
  - apply (bool_decide_unpack _). vm_compute. exact I.
  - apply (bool_decide_unpack _). vm_compute. exact I.
  - exact Hparameters.
Defined.

Lemma makeUrl_fragment_mark_witness :
  url_parameters (makeUrl sample_client (lit "indexes/a#b") empty_string) = [].
Proof.
  apply (makeUrl_fragment_mark sample_client (lit "indexes/a#b") empty_string).
  - apply (bool_decide_unpack _). vm_compute. exact I.
  - apply (bool_decide_unpack _). vm_compute. exact I.
Defined.

Lemma replying_extends {T} (r : AxiosResponse T) :
  @transport_extends sample_numbers T (replying r).
Proof. repeat split; intros; intros h; reflexivity. Qed.

Lemma calls_only_add_witness :
  (@getResource _ sample_engine
     (replying {| data := VNull; response_headers := ∅ |})
     sample_client (lit "indexes") (lit "hotels") document_store).2
    !! 1%positive
  = Some (ordinary (<[lit "id" := VStr (lit "1")]>
                      {[ lit "title" := VStr (lit "x") ]})).
Proof.
  destruct (@calls_only_add _ sample_engine
              (replying {| data := VNull; response_headers := ∅ |})
              (replying (batch_reply []))
              (replying {| data := {| value := [] |}; response_headers := ∅ |})
              (replying {| data := {| value := [] |}; response_headers := ∅ |})
              sample_client
              (replying_extends _) (replying_extends _)
              (replying_extends _) (replying_extends _))
    as (_ & _ & _ & Hresource & _).
  eapply lookup_weaken;
    [|apply (Hresource (lit "indexes") (lit "hotels") document_store)].
  reflexivity.
Defined.

Lemma getCoreNodeModule_never_throws_witness :
  @getCoreNodeModule _ sample_host (lit "keytar") ∅
  = (Ok (VRef 1), {[ 1%positive := ordinary ∅ ]}).
Proof.
  destruct (@getCoreNodeModule_never_throws _ sample_host (lit "keytar") ∅)
    as (_ & _ & Hplain & _).
  apply (Hplain (VStr (lit "MODULE_NOT_FOUND")) ∅); reflexivity.
Defined.
